(** * rank_model.py: the inference pipeline of the layer-wise reranker

    A shallow embedding of [src/inference/rank_model.py]: the score extractor
    [last_logit_pool], the sequence builder of [DatasetForReranker], the
    [collater], and the orchestrator [MatroyshkaReranker.compute_score].

    Python integers are [Z], Python lists are [list], Python exceptions are
    the [Raise] results of a small error monad.  The neural backend, the text
    encoder of the tokenizer and [numpy.argsort] are collaborators of the
    file, not part of it: they are parameters of the definitions, and what
    the proofs need of them is stated as contracts ([argsort_spec],
    [final_backend_shaped], [layered_backend_shaped]).  The list operations
    of the tokenizer base class ([prepare_for_model], [pad]) are written
    out. *)

From stdpp Require Import prelude strings sorting functions gmap.

Local Open Scope Z_scope.

(** ** Python exceptions as an error monad *)

Inductive pyerr : Type :=
  | IndexError
  | TypeError
  | ValueError
  | AttributeError
  | KeyError
  | RuntimeError.

Inductive result (A : Type) : Type :=
  | Ok (a : A)
  | Raise (e : pyerr).
Arguments Ok {A} a.
Arguments Raise {A} e.

Global Instance result_ret : MRet result := λ A a, Ok a.
Global Instance result_bind : MBind result := λ A B f m,
  match m with
  | Ok a => f a
  | Raise e => Raise e
  end.
Global Instance result_fmap : FMap result := λ A B f m,
  match m with
  | Ok a => Ok (f a)
  | Raise e => Raise e
  end.

Definition or_raise {A} (e : pyerr) (o : option A) : result A :=
  match o with
  | Some a => Ok a
  | None => Raise e
  end.

(** [l[i]] for a Python sequence or along one axis of a tensor: a negative
    index counts from the end, anything outside [-len, len) raises. *)
Definition py_index {A} (l : list A) (i : Z) : result A :=
  if bool_decide (0 ≤ i) then or_raise IndexError (l !! Z.to_nat i)
  else if bool_decide (0 ≤ Z.of_nat (length l) + i)
       then or_raise IndexError (l !! Z.to_nat (Z.of_nat (length l) + i))
       else Raise IndexError.

(** [t.sum()] of an integer tensor. *)
Definition sum_Z (l : list Z) : Z := foldr Z.add 0 l.

(** ** The score extractor (lines 20-28)

    A 2-D tensor is the list of its rows, a 3-D tensor the list of its 2-D
    slices; [logits] has one entry of type [A] per (row, position), which is
    a vocabulary vector for the final-layer head and a scalar for the
    layer-wise heads.  [torch.stack] refuses an empty list of tensors. *)

Definition last_logit_pool {A} (logits : list (list A))
    (attention_mask : list (list Z)) : result (list A) :=
  last_column ← mapM (λ row, py_index row (-1)) attention_mask;
  let left_padding :=
    bool_decide (sum_Z last_column = Z.of_nat (length attention_mask)) in
  if left_padding then
    mapM (λ row, py_index row (-1)) logits
  else
    let sequence_lengths := (λ row, sum_Z row - 1) <$> attention_mask in
    let batch_size := length logits in
    selected ← mapM (λ i : nat,
                       row ← py_index logits (Z.of_nat i);
                       pos ← py_index sequence_lengths (Z.of_nat i);
                       py_index row pos)
                    (seq 0 batch_size);
    if bool_decide (selected = []) then Raise RuntimeError else Ok selected.

(** ** The tokenizer

    [AutoTokenizer] is a collaborator.  Its text encoder is opaque:
    [tokenize text] is [tokenizer(text, add_special_tokens=False)['input_ids']]
    and [tokenize_truncated text n] is the same call with [max_length=n,
    truncation=True].  The constructors of both classes set
    [padding_side = 'right'] (lines 61 and 191). *)

Record Tokenizer : Type := {
  tokenize : string → list Z;
  tokenize_truncated : string → Z → list Z;
  bos_token_id : Z;
  pad_token_id : Z;
}.

(** The dictionaries the pipeline builds carry exactly the keys [input_ids]
    and [attention_mask] (lines 112-113, 341-342 and 353). *)
Record Encoding : Type := {
  input_ids : list Z;
  attention_mask : list Z;
}.

(** The padded batch returned by [tokenizer.pad(..., return_tensors='pt')]. *)
Record Batch : Type := {
  batch_input_ids : list (list Z);
  batch_attention_mask : list (list Z);
}.

(** [truncate_sequences] of the tokenizer base class for
    [truncation='only_second'] with the default right truncation side: the
    second sequence loses [num_tokens_to_remove] trailing tokens when it is
    strictly longer than that, and is otherwise left as it is (the library
    only logs an error). *)
Definition truncate_only_second (ids pair_ids : list Z)
    (num_tokens_to_remove : Z) : list Z * list Z :=
  if bool_decide (num_tokens_to_remove ≤ 0) then (ids, pair_ids)
  else if bool_decide (num_tokens_to_remove < Z.of_nat (length pair_ids))
       then (ids, take (length pair_ids - Z.to_nat num_tokens_to_remove) pair_ids)
       else (ids, pair_ids).

(** [tokenizer.prepare_for_model(ids, pair_ids, truncation='only_second',
    max_length=max_length, padding=False, add_special_tokens=False)
    ['input_ids']]: truncation is attempted when [max_length] is truthy and
    the total length exceeds it. *)
Definition prepare_for_model (ids pair_ids : list Z) (max_length : Z) : list Z :=
  let total_len := Z.of_nat (length ids) + Z.of_nat (length pair_ids) in
  let '(ids, pair_ids) :=
    if bool_decide (max_length ≠ 0) && bool_decide (max_length < total_len)
    then truncate_only_second ids pair_ids (total_len - max_length)
    else (ids, pair_ids) in
  ids ++ pair_ids.

Definition max_Z (l : list Z) : Z := foldr Z.max 0 l.

Definition all_same_length {A} (rows : list (list A)) : bool :=
  match rows with
  | [] => true
  | r :: rows' => forallb (λ r', Nat.eqb (length r') (length r)) rows'
  end.

(** [tokenizer.pad(features, padding=True, max_length=_,
    pad_to_multiple_of=m, return_tensors='pt')] on a list of encodings.
    [padding=True] is the LONGEST strategy: the target is the longest
    [input_ids] of the batch, rounded up to a multiple of [m]; the
    [max_length] argument is not read (the warning saying so is the one the
    collater silences, lines 126-127).  Padding is on the right, token ids
    with [pad_token_id] and the mask with 0, each by the difference between
    the target and the length of [input_ids].  The conversion to tensors
    needs rectangular data. *)
Definition tokenizer_pad (tok : Tokenizer) (features : list Encoding)
    (pad_to_multiple_of : Z) : result Batch :=
  let longest := max_Z ((λ e, Z.of_nat (length (input_ids e))) <$> features) in
  let max_length :=
    if bool_decide (longest `mod` pad_to_multiple_of ≠ 0)
    then (longest `div` pad_to_multiple_of + 1) * pad_to_multiple_of
    else longest in
  let difference e := Z.to_nat (max_length - Z.of_nat (length (input_ids e))) in
  let ids := (λ e, input_ids e ++ replicate (difference e) (pad_token_id tok)) <$> features in
  let mask := (λ e, attention_mask e ++ replicate (difference e) 0) <$> features in
  if all_same_length ids && all_same_length mask
  then Ok {| batch_input_ids := ids; batch_attention_mask := mask |}
  else Raise ValueError.

(** ** The sequence builder

    Lines 102-113 and 331-342 are the same code: the pair
    ([bos] + query, separator + passage) is truncated on its second member
    against [encode_max_length], then separator and prompt are appended and
    the mask is all ones. *)
Definition build_item (tok : Tokenizer) (sep_inputs prompt_inputs : list Z)
    (encode_max_length : Z) (query_inputs passage_inputs : list Z) : Encoding :=
  let item_ids :=
    prepare_for_model (bos_token_id tok :: query_inputs)
                      (sep_inputs ++ passage_inputs) encode_max_length in
  let ids := item_ids ++ sep_inputs ++ prompt_inputs in
  {| input_ids := ids; attention_mask := replicate (length ids) 1 |}.

Definition default_prompt : string :=
  "Predict whether passage B contains an answer to query A.".

Definition sep : string := String (Ascii.ascii_of_nat 10) EmptyString.

Module DatasetForReranker.

Record t : Type := {
  tokenizer : Tokenizer;
  dataset : list (string * string);
  max_len : Z;
  query_prefix : string;
  passage_prefix : string;
  total_len : nat;
  prompt_inputs : list Z;
  sep_inputs : list Z;
  encode_max_length : Z;
}.

(** Lines 48-81, with the default prefixes. *)
Definition __init__ (tok : Tokenizer) (dataset : list (string * string))
    (max_len : Z) (prompt : option string) : t :=
  let prompt := match prompt with None => default_prompt | Some p => p end in
  let prompt_inputs := tokenize tok prompt in
  let sep_inputs := tokenize tok sep in
  {| tokenizer := tok;
     dataset := dataset;
     max_len := max_len;
     query_prefix := "A: ";
     passage_prefix := "B: ";
     total_len := length dataset;
     prompt_inputs := prompt_inputs;
     sep_inputs := sep_inputs;
     encode_max_length :=
       max_len - Z.of_nat (length sep_inputs) - Z.of_nat (length prompt_inputs) |}.

Definition __len__ (self : t) : nat := total_len self.

(** Lines 86-118: the encoding, the query span length and the suffix
    length. *)
Definition __getitem__ (self : t) (item : Z) : result (Encoding * Z * Z) :=
  '(query, passage) ← py_index (dataset self) item;
  let query := query_prefix self +:+ query in
  let passage := passage_prefix self +:+ passage in
  let query_inputs := tokenize_truncated (tokenizer self) query 32 in
  let passage_inputs := tokenize_truncated (tokenizer self) passage (max_len self) in
  let item :=
    build_item (tokenizer self) (sep_inputs self) (prompt_inputs self)
               (encode_max_length self) query_inputs passage_inputs in
  Ok (item,
      Z.of_nat (length (bos_token_id (tokenizer self) :: query_inputs ++ sep_inputs self)),
      Z.of_nat (length (sep_inputs self ++ prompt_inputs self))).

End DatasetForReranker.

(** ** Python objects handed to the collater

    [collater.__call__] indexes its argument positionally, and its two
    callers hand it differently shaped objects, so the argument is modelled
    as the Python object it is: an integer, an encoding, or a list/tuple. *)

#[warnings="-register-all"]
Inductive pyobj : Type :=
  | PInt (z : Z)
  | PItem (e : Encoding)
  | PSeq (l : list pyobj).

(** [o[i]] with an integer [i]. *)
Definition obj_getitem (o : pyobj) (i : Z) : result pyobj :=
  match o with
  | PSeq l => py_index l i
  | PInt _ => Raise TypeError
  | PItem _ => Raise KeyError
  end.

(** [o.keys()]. *)
Definition obj_keys (o : pyobj) : result (list string) :=
  match o with
  | PItem _ => Ok ["input_ids"; "attention_mask"]
  | _ => Raise AttributeError
  end.

(** [tokenizer.pad] turns a list of dictionaries into a dictionary of lists
    with [example[key]] for every example, which raises on an example that
    is not a dictionary. *)
Definition obj_items (features : pyobj) : result (list Encoding) :=
  match features with
  | PSeq l =>
      mapM (λ example, match example with
                       | PItem e => Ok e
                       | _ => Raise TypeError
                       end) l
  | _ => Raise TypeError
  end.

Module collater.

Record t : Type := {
  tokenizer : Tokenizer;
  max_len : Z;
  pad_to_multiple_of : Z;
  label_pad_token_id : Z;
}.

Definition __init__ (tok : Tokenizer) (max_len : Z) : t :=
  {| tokenizer := tok;
     max_len := max_len;
     pad_to_multiple_of := 8;
     label_pad_token_id := -100 |}.

(** Lines 129-170.  No encoding has a ["labels"] key, so [labels] is
    [None] and lines 141-160 do not run; [tokenizer.pad] is called with the
    literal [pad_to_multiple_of=8]. *)
Definition __call__ (self : t) (data : pyobj) : result (Batch * pyobj * pyobj) :=
  features ← obj_getitem data 0;
  query_lengths ← obj_getitem data 1;
  prompt_lengths ← obj_getitem data 2;
  first ← obj_getitem features 0;
  _ ← obj_keys first;
  items ← obj_items features;
  collected ← tokenizer_pad (tokenizer self) items 8;
  Ok (collected, query_lengths, prompt_lengths).

End collater.

(** ** The scoring backend

    [self.model] is [CostWiseMistralForCausalLM] of [mistral_model.py], which
    is not among the sources: it is a parameter.  Its compression arguments
    are fixed at construction and passed through unread, so they are part of
    the opaque function.  In final-layer mode [outputs.logits] is one tensor
    [batch x seq x vocab]; in layer-wise mode it is a list of tensors
    [batch x seq], with one attention mask per tensor in
    [outputs.attention_masks].  The constructor puts the model in layer-wise
    mode exactly when [self.layer_wise] is set (lines 205-219). *)

Inductive Backend (F : Type) : Type :=
  | FinalLayer (forward : Batch → pyobj → pyobj → list (list (list F)))
  | LayerWise (forward : Batch → pyobj → pyobj →
                         list (list (list F)) * list (list (list Z))).
Arguments FinalLayer {F} forward.
Arguments LayerWise {F} forward.

(** What [compute_score] returns: a list of floats, or one list per layer. *)
Inductive Scores (F : Type) : Type :=
  | ScoreList (scores : list F)
  | LayerScores (scores : list (list F)).
Arguments ScoreList {F} scores.
Arguments LayerScores {F} scores.

(** The argument of [compute_score] is a list, of pairs or (for a single
    pair given as a list) of strings. *)
Inductive py_sentence_pairs : Type :=
  | PairList (l : list (string * string))
  | StrList (l : list string).

Fixpoint foldM {A B} (f : B → A → result B) (b : B) (l : list A) : result B :=
  match l with
  | [] => Ok b
  | x :: l' => b' ← f b x; foldM f b' l'
  end.

Fixpoint chunks_fuel {A} (fuel n : nat) (l : list A) : list (list A) :=
  match fuel with
  | O => []
  | S fuel' =>
      match l with
      | [] => []
      | _ => take n l :: chunks_fuel fuel' n (drop n l)
      end
  end.

(** [[l[start:start + n] for start in range(0, len(l), n)]]: a zero step
    raises, a negative step gives the empty range. *)
Definition batch_slices {A} (batch_size : Z) (l : list A) : result (list (list A)) :=
  if bool_decide (batch_size = 0) then Raise ValueError
  else if bool_decide (batch_size < 0) then Ok []
  else Ok (chunks_fuel (length l) (Z.to_nat batch_size) l).

Module MatroyshkaReranker.

Record t (F : Type) : Type := {
  tokenizer : Tokenizer;
  model : Backend F;
  yes_loc : Z;
}.
Arguments tokenizer {F} self : rename.
Arguments model {F} self : rename.
Arguments yes_loc {F} self : rename.

Definition layer_wise {F} (self : t F) : bool :=
  match model self with
  | FinalLayer _ => false
  | LayerWise _ => true
  end.

(** Lines 401-415 on a string: a string is not a dictionary and has a
    length; when it is not empty its first element is a string, so the
    lengths of its characters are summed. *)
Definition _text_length (text : string) : Z :=
  let chars := String.list_ascii_of_string text in
  if bool_decide (length chars = 0%nat) then Z.of_nat (length chars)
  else sum_Z ((λ t, Z.of_nat (String.length (String t EmptyString))) <$> chars).

(** Lines 253-255. *)
Definition normalize_pairs (sentence_pairs : py_sentence_pairs) :
    result (list (string * string)) :=
  match sentence_pairs with
  | PairList [] => Raise IndexError
  | PairList l => Ok l
  | StrList [] => Raise IndexError
  | StrList [q; p] => Ok [(q, p)]
  | StrList _ => Raise ValueError
  end.

(** Lines 295-299 and 379-383. *)
Definition final_layer_scores {F} (yes_loc : Z) (logits : list (list (list F)))
    (attention_mask : list (list Z)) : result (list F) :=
  scores ← last_logit_pool logits attention_mask;
  mapM (λ row, py_index row yes_loc) scores.

(** Lines 285-288 and 369-372. *)
Definition layer_wise_scores {F} (logits : list (list (list F)))
    (attention_masks : list (list (list Z))) : result (list (list F)) :=
  mapM (λ i : nat,
          l ← py_index logits (Z.of_nat i);
          m ← py_index attention_masks (Z.of_nat i);
          last_logit_pool l m)
       (seq 0 (length logits)).

(** Lines 293 and 377: [all_scores[i].extend(scores[i])]. *)
Definition extend_layer {F} (scores all_scores : list (list F)) (i : nat) :
    result (list (list F)) :=
  cur ← py_index all_scores (Z.of_nat i);
  s ← py_index scores (Z.of_nat i);
  Ok (<[i := cur ++ s]> all_scores).

(** Lines 289-293 and 373-377. *)
Definition extend_layers {F} (all_scores scores : list (list F)) :
    result (list (list F)) :=
  let all_scores :=
    if bool_decide (length all_scores = 0%nat)
    then replicate (length scores) []
    else all_scores in
  foldM (extend_layer scores) all_scores (seq 0 (length scores)).

(** Lines 313-357: one batch of the synchronous path. *)
Definition sync_batch (tok : Tokenizer) (max_length : Z)
    (sep_inputs prompt_inputs : list Z) (encode_max_length : Z)
    (batch_sentences : list (string * string)) : result (Batch * pyobj * pyobj) :=
  let batch_sentences := (λ '(q, p), ("A: " +:+ q, "B: " +:+ p)) <$> batch_sentences in
  let queries := fst <$> batch_sentences in
  let passages := snd <$> batch_sentences in
  let queries_inputs := (λ q, tokenize_truncated tok q 32) <$> queries in
  let passages_inputs := (λ p, tokenize_truncated tok p max_length) <$> passages in
  let pairs := zip queries_inputs passages_inputs in
  let batch_inputs :=
    (λ '(query_inputs, passage_inputs),
       build_item tok sep_inputs prompt_inputs encode_max_length
                  query_inputs passage_inputs) <$> pairs in
  let query_lengths :=
    (λ '(query_inputs, _),
       Z.of_nat (length (bos_token_id tok :: query_inputs ++ sep_inputs))) <$> pairs in
  let prompt_lengths :=
    (λ _ : list Z * list Z, Z.of_nat (length (sep_inputs ++ prompt_inputs))) <$> pairs in
  let collater_instance := collater.__init__ tok max_length in
  '(collected, _, _) ← collater.__call__ collater_instance
     (PSeq [PSeq (PItem <$> batch_inputs);
            PSeq (PInt <$> query_lengths);
            PSeq (PInt <$> prompt_lengths)]);
  Ok (collected, PSeq (PInt <$> query_lengths), PSeq (PInt <$> prompt_lengths)).

(** Lines 302-312: the batches of the synchronous path.  The [prompt]
    argument is overwritten before it is read. *)
Definition sync_batches (tok : Tokenizer) (sentences_sorted : list (string * string))
    (batch_size max_length : Z) (prompt : option string) :
    result (list (result (Batch * pyobj * pyobj))) :=
  let prompt := default_prompt in
  let prompt_inputs := tokenize tok prompt in
  let sep_inputs := tokenize tok sep in
  let encode_max_length :=
    max_length + Z.of_nat (length sep_inputs) + Z.of_nat (length prompt_inputs) in
  batch_slices batch_size sentences_sorted ≫=
    λ slices : list (list (string * string)),
      Ok (sync_batch tok max_length sep_inputs prompt_inputs encode_max_length <$> slices).

(** One batch of the [DataLoader]: the samples of the batch are fetched
    and the list of samples is handed to [collate_fn]. *)
Definition dataloader_batch (ds : DatasetForReranker.t) (collate_fn : collater.t)
    (indices : list nat) : result (Batch * pyobj * pyobj) :=
  samples ← mapM (λ i : nat, DatasetForReranker.__getitem__ ds (Z.of_nat i)) indices;
  collater.__call__ collate_fn
    (PSeq ((λ '(item, query_length, prompt_length),
              PSeq [PItem item; PInt query_length; PInt prompt_length]) <$> samples)).

(** Lines 261-271: [DataLoader] refuses a batch size that is not
    positive, and batches the indices [0 .. len(dataset) - 1] in order
    ([shuffle=False, drop_last=False]). *)
Definition dataloader_batches (tok : Tokenizer) (sentences_sorted : list (string * string))
    (batch_size max_length : Z) (prompt : option string) :
    result (list (result (Batch * pyobj * pyobj))) :=
  let dataset := DatasetForReranker.__init__ tok sentences_sorted max_length prompt in
  let collate_fn := collater.__init__ tok max_length in
  if bool_decide (batch_size ≤ 0) then Raise ValueError
  else
    let indices := seq 0 (DatasetForReranker.__len__ dataset) in
    Ok (dataloader_batch dataset collate_fn <$>
          chunks_fuel (length indices) (Z.to_nat batch_size) indices).

(** Lines 260-271 against 302-357: the batches the backend is fed. *)
Definition prepare_batches (tok : Tokenizer) (use_dataloader : bool)
    (sentences_sorted : list (string * string)) (batch_size max_length : Z)
    (prompt : option string) : result (list (result (Batch * pyobj * pyobj))) :=
  if use_dataloader
  then dataloader_batches tok sentences_sorted batch_size max_length prompt
  else sync_batches tok sentences_sorted batch_size max_length prompt.

(** Lines 257-258. *)
Definition length_sort (np_argsort : list Z → list nat)
    (sentence_pairs : list (string * string)) :
    result (list nat * list (string * string)) :=
  let length_sorted_idx :=
    np_argsort ((λ '(q, p), - _text_length q - _text_length p) <$> sentence_pairs) in
  sentences_sorted ←
    mapM (λ idx : nat, py_index sentence_pairs (Z.of_nat idx)) length_sorted_idx;
  Ok (length_sorted_idx, sentences_sorted).

(** Lines 272-283 with 295-299, and 361-367 with 379-383: the scores of
    one batch in final-layer mode. *)
Definition final_layer_batch {F}
    (forward : Batch → pyobj → pyobj → list (list (list F))) (yes_loc : Z)
    (data : result (Batch * pyobj * pyobj)) : result (list F) :=
  '(inputs, query_lengths, prompt_lengths) ← data;
  let logits := forward inputs query_lengths prompt_lengths in
  final_layer_scores yes_loc logits (batch_attention_mask inputs).

(** Lines 272-288 and 361-372: the scores of one batch in layer-wise
    mode, one list per exit layer. *)
Definition layer_wise_batch {F}
    (forward : Batch → pyobj → pyobj → list (list (list F)) * list (list (list Z)))
    (data : result (Batch * pyobj * pyobj)) : result (list (list F)) :=
  '(inputs, query_lengths, prompt_lengths) ← data;
  let '(logits, attention_masks) := forward inputs query_lengths prompt_lengths in
  layer_wise_scores logits attention_masks.

(** Lines 388 and 390: [[scores[idx] for idx in np.argsort(length_sorted_idx)]]. *)
Definition restore_order {F} (np_argsort : list Z → list nat)
    (length_sorted_idx : list nat) (scores : list F) : result (list F) :=
  mapM (λ idx : nat, py_index scores (Z.of_nat idx))
       (np_argsort (Z.of_nat <$> length_sorted_idx)).

(** Lines 249-398. *)
Definition compute_score {F} (np_argsort : list Z → list nat) (self : t F)
    (sentence_pairs : py_sentence_pairs) (batch_size max_length : Z)
    (prompt : option string) (normalize use_dataloader : bool) : result (Scores F) :=
  sentence_pairs ← normalize_pairs sentence_pairs;
  '(length_sorted_idx, sentences_sorted) ← length_sort np_argsort sentence_pairs;
  batches ← prepare_batches (tokenizer self) use_dataloader sentences_sorted
               batch_size max_length prompt;
  match model self with
  | LayerWise forward =>
      all_scores ←
        foldM (λ all_scores data,
                 scores ← layer_wise_batch forward data;
                 extend_layers all_scores scores)
              [] batches;
      all_scores ← mapM (restore_order np_argsort length_sorted_idx) all_scores;
      Ok (LayerScores all_scores)
  | FinalLayer forward =>
      all_scores ←
        foldM (λ all_scores data,
                 scores ← final_layer_batch forward (yes_loc self) data;
                 Ok (all_scores ++ scores))
              [] batches;
      all_scores ← restore_order np_argsort length_sorted_idx all_scores;
      Ok (ScoreList all_scores)
  end.

End MatroyshkaReranker.

(** ** Nested attributes (lines 30-41)

    Objects are locations of a heap of instance attributes; an attribute
    holds a reference to an object or an atom (a number, [None]), on which
    the attributes of a path are neither defined nor settable.  [setattr]
    mutates the object in place, so a second reference to it sees the new
    attribute. *)

(** [attr.split('.')]: the parts between the dots, empty parts included. *)
Fixpoint split_dot (attr : string) : list string :=
  match attr with
  | EmptyString => [EmptyString]
  | String c rest =>
      if Ascii.eqb c (Ascii.ascii_of_nat 46)
      then EmptyString :: split_dot rest
      else match split_dot rest with
           | [] => [String c EmptyString]
           | part :: parts => String c part :: parts
           end
  end.

Inductive value : Type :=
  | VAtom (z : Z)
  | VRef (l : nat).

Abbreviation heap := (nat → gmap string value).

(** [getattr(obj, attribute)]. *)
Definition getattr (h : heap) (obj : value) (attribute : string) : result value :=
  match obj with
  | VRef l => or_raise AttributeError (h l !! attribute)
  | VAtom _ => Raise AttributeError
  end.

(** [setattr(obj, attribute, v)]. *)
Definition setattr (h : heap) (obj : value) (attribute : string) (v : value) :
    result heap :=
  match obj with
  | VRef l => Ok (<[l := <[attribute := v]> (h l)]> h)
  | VAtom _ => Raise AttributeError
  end.

(** Lines 30-34. *)
Definition set_nested_attr (h : heap) (obj : value) (attr : string) (v : value) :
    result heap :=
  let attributes := split_dot attr in
  obj ← foldM (getattr h) obj (take (length attributes - 1) attributes);
  last_attribute ← py_index attributes (-1);
  setattr h obj last_attribute v.

(** Lines 37-41. *)
Definition get_nested_attr (h : heap) (obj : value) (attr : string) : result value :=
  let attributes := split_dot attr in
  foldM (getattr h) obj attributes.

(** ** Concrete collaborators

    Instances of the three collaborators on which the definitions can be
    run: a tokenizer with one token per character, an [argsort] by merge
    sort, and two small backends. *)

Module Sample.

Definition char_tokens (text : string) : list Z :=
  (λ c, Z.of_nat (Ascii.nat_of_ascii c)) <$> String.list_ascii_of_string text.

Definition char_tokenizer : Tokenizer :=
  {| tokenize := char_tokens;
     tokenize_truncated := λ text n,
       if bool_decide (0 < n) then take (Z.to_nat n) (char_tokens text)
       else char_tokens text;
     bos_token_id := 1;
     pad_token_id := 0 |}.

Definition key_le (keys : list Z) : relation nat :=
  λ i j, keys !!! i ≤ keys !!! j.

Global Instance key_le_dec keys i j : Decision (key_le keys i j) :=
  Z_le_dec (keys !!! i) (keys !!! j).

Definition argsort (keys : list Z) : list nat :=
  merge_sort (key_le keys) (seq 0 (length keys)).

(** Every position of a row carries the vector [[token; sum of the row]]. *)
Definition final_forward (inputs : Batch) (_ _ : pyobj) : list (list (list Z)) :=
  (λ row, (λ token, [token; sum_Z row]) <$> row) <$> batch_input_ids inputs.

Definition final_backend : Backend Z := FinalLayer final_forward.

(** Three exit layers; layer [k] scores a row by the sum of its tokens
    plus [1000 * k]. *)
Definition layered_forward (inputs : Batch) (_ _ : pyobj) :
    list (list (list Z)) * list (list (list Z)) :=
  ((λ k, (λ row, (λ _, sum_Z row + 1000 * k) <$> row) <$> batch_input_ids inputs)
     <$> [0; 1; 2],
   replicate 3 (batch_attention_mask inputs)).

Definition layered_backend : Backend Z := LayerWise layered_forward.

Definition final_reranker : MatroyshkaReranker.t Z :=
  {| MatroyshkaReranker.tokenizer := char_tokenizer;
     MatroyshkaReranker.model := final_backend;
     MatroyshkaReranker.yes_loc := 1 |}.

Definition layered_reranker : MatroyshkaReranker.t Z :=
  {| MatroyshkaReranker.tokenizer := char_tokenizer;
     MatroyshkaReranker.model := layered_backend;
     MatroyshkaReranker.yes_loc := 1 |}.

Definition long_passage : string :=
  String.string_of_list_ascii (replicate 200 (Ascii.ascii_of_nat 120)).

Definition scenario : list (string * string) :=
  [("what is X", "X is a protocol");
   ("a very long query repeated many times", "short")].

End Sample.

(** ** Vocabulary of the statements *)

(** What is used of [numpy.argsort]: on a list of integers it returns a
    permutation of the positions that lists the keys in non-decreasing
    order.  Nothing is assumed on how ties are broken. *)
Record argsort_spec (np_argsort : list Z → list nat) : Prop := {
  argsort_perm : ∀ keys, np_argsort keys ≡ₚ seq 0 (length keys);
  argsort_sorted : ∀ keys, Sorted Z.le ((λ i : nat, keys !!! i) <$> np_argsort keys);
}.

(** [attention_mask[:, -1]] of a mask whose rows are not empty. *)
Definition last_column (attention_mask : list (list Z)) : list Z :=
  (λ row, default 0 (last row)) <$> attention_mask.

(** A 0/1 attention mask. *)
Definition binary_mask (attention_mask : list (list Z)) : Prop :=
  Forall (Forall (λ m, m = 0 ∨ m = 1)) attention_mask.

(** [np.argsort(length_sorted_idx)] (lines 388 and 390). *)
Definition inverse_of (np_argsort : list Z → list nat) (idx : list nat) : list nat :=
  np_argsort (Z.of_nat <$> idx).

(** [n] is the smallest multiple of 8 that is at least [m]. *)
Definition smallest_multiple_of_8_from (m n : Z) : Prop :=
  (8 | n) ∧ m ≤ n ∧ ∀ k, (8 | k) → m ≤ k → n ≤ k.

(** The longest [input_ids] of a batch of encodings. *)
Definition longest_example (features : list Encoding) : Z :=
  max_Z ((λ e, Z.of_nat (length (input_ids e))) <$> features).

(** The argument the synchronous path hands to the collater (lines 351-357). *)
Definition collater_data (features : list Encoding)
    (query_lengths prompt_lengths : list Z) : pyobj :=
  PSeq [PSeq (PItem <$> features);
        PSeq (PInt <$> query_lengths);
        PSeq (PInt <$> prompt_lengths)].

(** The padding rule with the cap [min(max_length, longest example)]: every
    row of the returned [input_ids] has as length the smallest multiple of 8
    from that cap on. *)
Definition padded_to_capped_multiple (tok : Tokenizer) (max_length : Z)
    (features : list Encoding) (query_lengths prompt_lengths : list Z) : Prop :=
  ∀ collected ql pl,
    collater.__call__ (collater.__init__ tok max_length)
      (collater_data features query_lengths prompt_lengths) = Ok (collected, ql, pl) →
    ∃ n, smallest_multiple_of_8_from (Z.min max_length (longest_example features)) n ∧
         Forall (λ row, Z.of_nat (length row) = n) (batch_input_ids collected).

(** The token sequence [DatasetForReranker] builds for one pair. *)
Definition dataset_sequence (tok : Tokenizer) (query passage : string)
    (max_length : Z) (prompt : option string) : result (list Z) :=
  '(item, _, _) ← DatasetForReranker.__getitem__
     (DatasetForReranker.__init__ tok [(query, passage)] max_length prompt) 0;
  Ok (input_ids item).

(** The token sequences the synchronous path builds for one batch, before
    padding (lines 313-346). *)
Definition sync_sequences (tok : Tokenizer) (max_length : Z)
    (batch_sentences : list (string * string)) : list (list Z) :=
  let prompt_inputs := tokenize tok default_prompt in
  let sep_inputs := tokenize tok sep in
  let encode_max_length :=
    max_length + Z.of_nat (length sep_inputs) + Z.of_nat (length prompt_inputs) in
  (λ '(q, p),
     input_ids (build_item tok sep_inputs prompt_inputs encode_max_length
                  (tokenize_truncated tok ("A: " +:+ q) 32)
                  (tokenize_truncated tok ("B: " +:+ p) max_length)))
    <$> batch_sentences.

(** The truncation invariant as the specification words it: the built
    sequence is never longer than [max_length]. *)
Definition sequence_within_max_length (tok : Tokenizer) (query passage : string)
    (max_length : Z) (prompt : option string) : Prop :=
  ∀ ids, dataset_sequence tok query passage max_length prompt = Ok ids →
         Z.of_nat (length ids) ≤ max_length.

(** The scores of exit layer [l] over all batches, concatenated in batch
    order: entry [j] is the score of the pair at sorted position [j]. *)
Definition layer_column {F} (l : nat) (per_batch : list (list (list F))) : list F :=
  concat ((λ scores, default [] (scores !! l)) <$> per_batch).

Definition layer_columns {F} (k : nat) (per_batch : list (list (list F))) :
    list (list F) :=
  (λ l, layer_column l per_batch) <$> seq 0 k.

(** A batch as the collater returns it: token ids and a 0/1 mask of one
    shape [batch x L]. *)
Definition padded_batch (inputs : Batch) (L : nat) : Prop :=
  (0 < L)%nat ∧
  length (batch_input_ids inputs) = length (batch_attention_mask inputs) ∧
  Forall (λ row, length row = L) (batch_input_ids inputs) ∧
  Forall (λ row, length row = L) (batch_attention_mask inputs) ∧
  binary_mask (batch_attention_mask inputs).

(** What is used of the backend in final-layer mode: on a padded batch the
    logits have the batch size and the sequence length of the attention
    mask, and a vocabulary that holds [yes_loc]. *)
Definition final_backend_shaped {F}
    (forward : Batch → pyobj → pyobj → list (list (list F))) (yes_loc : Z) : Prop :=
  ∀ inputs query_lengths prompt_lengths L,
    padded_batch inputs L →
    Forall2 (λ logits_row mask_row,
               length logits_row = length mask_row ∧
               Forall (λ v, 0 ≤ yes_loc < Z.of_nat (length v)) logits_row)
            (forward inputs query_lengths prompt_lengths)
            (batch_attention_mask inputs).

(** What is used of the backend in layer-wise mode: on a padded batch, [k]
    logits tensors and [k] masks; tensor and 0/1 mask of a layer have the
    batch size of the input and a common, positive sequence length. *)
Definition layered_backend_shaped {F}
    (forward : Batch → pyobj → pyobj → list (list (list F)) * list (list (list Z)))
    (k : nat) : Prop :=
  ∀ inputs query_lengths prompt_lengths L,
    padded_batch inputs L →
    length (forward inputs query_lengths prompt_lengths).1 = k ∧
    Forall2 (λ layer_logits layer_mask,
               length layer_logits = length (batch_attention_mask inputs) ∧
               binary_mask layer_mask ∧
               ∃ L', (0 < L')%nat ∧
                     Forall2 (λ logits_row mask_row,
                                length logits_row = L' ∧ length mask_row = L')
                             layer_logits layer_mask)
            (forward inputs query_lengths prompt_lengths).1
            (forward inputs query_lengths prompt_lengths).2.


(** A model object with an encoder that has a head, and a second reference
    [tied] to that head. *)
Definition sample_heap : heap :=
  λ l, match l with
       | 0%nat => {[ "encoder" := VRef 1; "tied" := VRef 2 ]}
       | 1%nat => {[ "head" := VRef 2; "depth" := VAtom 12 ]}
       | 2%nat => {[ "bias" := VAtom 0 ]}
       | _ => ∅
       end.

(** An object whose attribute [a] is the object itself. *)
Definition cyclic_heap : heap :=
  λ l, match l with
       | 0%nat => {[ "a" := VRef 0 ]}
       | _ => ∅
       end.


(** [len(q) + len(p)] for a pair of strings. *)
Definition combined_length (pair : string * string) : nat :=
  (String.length pair.1 + String.length pair.2)%nat.

(** * Properties *)

(** ** The error monad and Python indexing *)

Lemma bind_Ok {A B} (a : A) (f : A → result B) : Ok a ≫= f = f a.
Proof. reflexivity. Qed.

Section result_lemmas.
Context {A B : Type}.
Implicit Types (f g : A → result B) (l : list A) (k : list B).

Lemma mapM_nil f : mapM f [] = Ok [].
Proof. reflexivity. Qed.

Lemma mapM_cons f x l :
  mapM f (x :: l) = y ← f x; k ← mapM f l; Ok (y :: k).
Proof. reflexivity. Qed.

Lemma mapM_Ok_Forall2 f l k :
  mapM f l = Ok k ↔ Forall2 (λ x y, f x = Ok y) l k.
Proof.
  revert k. induction l as [|x l IH]; intros k.
  - rewrite mapM_nil. split.
    + intros [= <-]. constructor.
    + intros ->%Forall2_nil_inv_l. reflexivity.
  - rewrite mapM_cons. split.
    + destruct (f x) as [y|] eqn:Hx; [|discriminate]. simpl.
      destruct (mapM f l) as [k'|] eqn:Hl; [|discriminate]. simpl.
      intros [= <-]. constructor; [done|]. by apply IH.
    + intros (y & k' & Hy & Hk & ->)%Forall2_cons_inv_l.
      rewrite Hy. simpl. apply IH in Hk. rewrite Hk. reflexivity.
Qed.

Lemma mapM_Ok_length f l k : mapM f l = Ok k → length k = length l.
Proof. intros H%mapM_Ok_Forall2. symmetry. by eapply Forall2_length. Qed.

Lemma mapM_Ok_fmap f (h : A → B) l :
  (∀ x, x ∈ l → f x = Ok (h x)) → mapM f l = Ok (h <$> l).
Proof.
  intros H. apply mapM_Ok_Forall2, Forall2_fmap_r, Forall_Forall2_diag.
  by apply Forall_forall.
Qed.

Lemma mapM_Ok_total f l :
  (∀ x, x ∈ l → ∃ y, f x = Ok y) → ∃ k, mapM f l = Ok k.
Proof.
  induction l as [|x l IH]; intros H.
  - by exists [].
  - destruct (H x) as [y Hy]; [by left|].
    destruct IH as [k Hk]; [intros; apply H; by right|].
    exists (y :: k). by rewrite mapM_cons, Hy, Hk.
Qed.

End result_lemmas.

Lemma mapM_fmap_result {A B C} (f : B → result C) (h : A → B) (l : list A) :
  mapM f (h <$> l) = mapM (f ∘ h) l.
Proof. induction l as [|x l IH]; [done|]. by rewrite fmap_cons, !mapM_cons, IH. Qed.

(** A loop over [range(len(l))] that only reads [l[i]] is a loop over [l]. *)
Lemma mapM_seq_lookup {A B} (f : nat → result B) (g : A → result B) (l : list A) :
  (∀ i x, l !! i = Some x → f i = g x) →
  mapM f (seq 0 (length l)) = mapM g l.
Proof.
  revert f. induction l as [|x l IH]; intros f H; [done|].
  simpl length. rewrite <- cons_seq, <- fmap_S_seq, !mapM_cons, mapM_fmap_result.
  rewrite (H 0%nat x) by done. rewrite (IH (f ∘ S)); [done|].
  intros i y Hi. by apply (H (S i)).
Qed.

Lemma py_index_nat {A} (l : list A) (i : nat) :
  py_index l (Z.of_nat i) = or_raise IndexError (l !! i).
Proof.
  unfold py_index. rewrite bool_decide_true by lia. by rewrite Nat2Z.id.
Qed.

Lemma py_index_last {A} (l : list A) :
  py_index l (-1) = or_raise IndexError (last l).
Proof.
  unfold py_index. rewrite bool_decide_false by lia.
  destruct l as [|x l] using rev_ind.
  - by rewrite bool_decide_false by (simpl; lia).
  - rewrite length_app, bool_decide_true by (simpl; lia).
    rewrite last_snoc. simpl length.
    match goal with
    | |- context [Z.to_nat ?z] => replace (Z.to_nat z) with (length l) by lia
    end.
    by rewrite lookup_app_r, Nat.sub_diag by lia.
Qed.


(** ** The score extractor *)

Lemma sum_Z_binary (row : list Z) :
  Forall (λ m, m = 0 ∨ m = 1) row → 0 ≤ sum_Z row ≤ Z.of_nat (length row).
Proof.
  induction 1 as [|m row [-> | ->] _ IH]; simpl; lia.
Qed.

Lemma sum_Z_zeros (row : list Z) : Forall (λ m, m = 0) row → sum_Z row = 0.
Proof. induction 1 as [|m row -> _ IH]; simpl; lia. Qed.

Lemma py_index_in_bounds {A} (l : list A) (i : Z) :
  - Z.of_nat (length l) ≤ i < Z.of_nat (length l) → ∃ x, py_index l i = Ok x.
Proof.
  intros Hi. unfold py_index. case_bool_decide.
  - destruct (lookup_lt_is_Some_2 l (Z.to_nat i)) as [x ->]; [lia|]. by exists x.
  - rewrite bool_decide_true by lia.
    destruct (lookup_lt_is_Some_2 l (Z.to_nat (Z.of_nat (length l) + i))) as [x ->];
      [lia|]. by exists x.
Qed.

Lemma py_index_Ok_elem_of {A} (l : list A) (i : Z) (x : A) :
  py_index l i = Ok x → x ∈ l.
Proof.
  unfold py_index. repeat case_bool_decide; [| |done];
    (destruct (l !! _) eqn:Hl; [|done]); intros [= <-];
    by eapply list_elem_of_lookup_2.
Qed.

(** [logits] is [batch x L x ...] and [attention_mask] is [batch x M]. *)
Section last_logit_pool.
Context {A : Type}.
Variables (logits : list (list A)) (attention_mask : list (list Z)) (L M : nat).
Hypothesis L_pos : (0 < L)%nat.
Hypothesis M_pos : (0 < M)%nat.
Hypothesis same_batch : length logits = length attention_mask.
Hypothesis logits_shape : Forall (λ row, length row = L) logits.
Hypothesis mask_shape : Forall (λ row, length row = M) attention_mask.

Lemma mask_last_column :
  mapM (λ row, py_index row (-1)) attention_mask = Ok (last_column attention_mask).
Proof.
  apply mapM_Ok_fmap. intros row Hrow. rewrite py_index_last.
  rewrite Forall_forall in mask_shape. specialize (mask_shape row Hrow).
  destruct (last row) eqn:Hlast; [done|].
  apply last_None in Hlast as ->. simpl in *; lia.
Qed.

Lemma last_logit_pool_left :
  sum_Z (last_column attention_mask) = Z.of_nat (length attention_mask) →
  ∃ out, last_logit_pool logits attention_mask = Ok out ∧
         Forall2 (λ row x, row !! (L - 1)%nat = Some x) logits out.
Proof.
  intros Hleft. unfold last_logit_pool. rewrite mask_last_column. simpl.
  rewrite bool_decide_true by done.
  destruct (mapM_Ok_total (λ row : list A, py_index row (-1)) logits) as [out Hout].
  { intros row Hrow. rewrite py_index_last.
    rewrite Forall_forall in logits_shape. specialize (logits_shape row Hrow).
    destruct (last row) eqn:Hlast; [by eexists|].
    apply last_None in Hlast as ->. simpl in *; lia. }
  exists out. split; [done|].
  apply mapM_Ok_Forall2 in Hout.
  clear -Hout logits_shape. induction Hout as [|row x rows out Hx _ IH].
  - constructor.
  - apply Forall_cons in logits_shape as [Hlen Hrows].
    constructor; [|by apply IH].
    rewrite py_index_last, last_lookup, Hlen in Hx.
    replace (L - 1)%nat with (pred L) by lia.
    by destruct (row !! pred L); simplify_eq/=.
Qed.

Lemma last_logit_pool_right :
  sum_Z (last_column attention_mask) ≠ Z.of_nat (length attention_mask) →
  last_logit_pool logits attention_mask =
    mapM (λ rm, py_index rm.1 (sum_Z rm.2 - 1)) (zip logits attention_mask).
Proof.
  intros Hright. unfold last_logit_pool. rewrite mask_last_column. simpl.
  rewrite bool_decide_false by done.
  rewrite <- (length_zip_with_l_eq pair logits attention_mask) by done.
  rewrite (mapM_seq_lookup _ (λ rm, py_index rm.1 (sum_Z rm.2 - 1))).
  2:{ intros i [row mask_row] Hi.
      apply lookup_zip_with_Some in Hi as (? & ? & [= <- <-] & Hrow & Hmask).
      rewrite !py_index_nat, Hrow, list_lookup_fmap, Hmask. done. }
  destruct (mapM _ (zip logits attention_mask)) as [selected|e] eqn:Hsel; [|done].
  rewrite bind_Ok. rewrite bool_decide_false; [done|]. intros ->.
  apply mapM_Ok_length in Hsel.
  rewrite length_zip_with_l_eq, same_batch in Hsel by done.
  destruct attention_mask; [|done]. by apply Hright.
Qed.

(** On a 0/1 mask no wider than the logits the right-padded branch reads
    inside every row. *)
Lemma last_logit_pool_right_binary :
  (M ≤ L)%nat →
  binary_mask attention_mask →
  sum_Z (last_column attention_mask) ≠ Z.of_nat (length attention_mask) →
  ∃ out, last_logit_pool logits attention_mask = Ok out ∧
    Forall2 (λ rm x,
               -1 ≤ sum_Z rm.2 - 1 < Z.of_nat L ∧
               py_index rm.1 (sum_Z rm.2 - 1) = Ok x ∧
               (Forall (λ m, m = 0) rm.2 →
                  sum_Z rm.2 - 1 = -1 ∧ rm.1 !! (L - 1)%nat = Some x))
            (zip logits attention_mask) out.
Proof.
  intros HML Hbin Hright. rewrite last_logit_pool_right by done.
  assert (Hrows : ∀ rm, rm ∈ zip logits attention_mask →
            length rm.1 = L ∧ length rm.2 = M ∧ Forall (λ m, m = 0 ∨ m = 1) rm.2).
  { intros [row mask_row] Hin. apply list_elem_of_lookup in Hin as [i Hi].
    apply lookup_zip_with_Some in Hi as (? & ? & [= <- <-] & Hrow & Hm).
    rewrite Forall_lookup in logits_shape. rewrite Forall_lookup in mask_shape.
    unfold binary_mask in Hbin. rewrite Forall_lookup in Hbin. simpl.
    split; [by eapply logits_shape|]. split; [by eapply mask_shape|].
    by eapply Hbin. }
  destruct (mapM_Ok_total (λ rm : list A * list Z, py_index rm.1 (sum_Z rm.2 - 1))
              (zip logits attention_mask)) as [out Hout].
  { intros rm (Hl1 & Hl2 & Hb)%Hrows. apply py_index_in_bounds.
    apply sum_Z_binary in Hb. lia. }
  exists out. split; [done|].
  apply mapM_Ok_Forall2 in Hout.
  induction Hout as [|rm x rms out Hx _ IH]; [constructor|].
  constructor.
  - destruct (Hrows rm) as (Hl1 & Hl2 & Hb); [by left|].
    pose proof (sum_Z_binary _ Hb). split; [lia|]. split; [done|].
    intros Hz. apply sum_Z_zeros in Hz. rewrite Hz in Hx |- *. split; [done|].
    rewrite py_index_last, last_lookup, Hl1 in Hx.
    replace (L - 1)%nat with (pred L) by lia.
    by destruct (rm.1 !! pred L); simplify_eq/=.
  - apply IH. intros; apply Hrows; by right.
Qed.

(** In both branches the extractor returns one entry per row, taken from
    that row. *)
Lemma last_logit_pool_Ok :
  (M ≤ L)%nat →
  binary_mask attention_mask →
  ∃ out, last_logit_pool logits attention_mask = Ok out ∧
         Forall2 (λ row x, x ∈ row) logits out.
Proof.
  intros HML Hbin.
  destruct (decide (sum_Z (last_column attention_mask)
                    = Z.of_nat (length attention_mask))) as [Hleft|Hright].
  - destruct (last_logit_pool_left Hleft) as (out & Hout & Hsel).
    exists out. split; [done|].
    eapply Forall2_impl; [exact Hsel|]. intros row x Hx. simpl in Hx.
    eapply list_elem_of_lookup_2, Hx.
  - destruct (last_logit_pool_right_binary HML Hbin Hright) as (out & Hout & Hsel).
    exists out. split; [done|].
    apply Forall2_same_length_lookup. split.
    + apply Forall2_length in Hsel.
      by rewrite length_zip_with_l_eq in Hsel.
    + intros i row x Hrow Hx.
      destruct (lookup_lt_is_Some_2 attention_mask i) as [mask_row Hmask].
      { rewrite <- same_batch. by eapply lookup_lt_Some. }
      assert (Hzip : zip logits attention_mask !! i = Some (row, mask_row)).
      { apply lookup_zip_with_Some. eauto. }
      destruct (Forall2_lookup_lr _ _ _ _ _ _ Hsel Hzip Hx) as (_ & Hpy & _).
      by eapply py_index_Ok_elem_of.
Qed.
End last_logit_pool.

(** C3: for a logits tensor and an attention mask with the same batch size,
    [last_logit_pool] returns for every row the logits at the final position
    when the last column of the mask sums to the batch size, and otherwise
    the list whose entry for each row is the logits at position (sum of that
    row of the mask) - 1, read with Python indexing. *)
Theorem last_logit_pool_position_rule {A} (logits : list (list A))
    (attention_mask : list (list Z)) (L M : nat) :
  (0 < L)%nat →
  (0 < M)%nat →
  length logits = length attention_mask →
  Forall (λ row, length row = L) logits →
  Forall (λ row, length row = M) attention_mask →
  (sum_Z (last_column attention_mask) = Z.of_nat (length attention_mask) →
     ∃ out, last_logit_pool logits attention_mask = Ok out ∧
            Forall2 (λ row x, row !! (L - 1)%nat = Some x) logits out) ∧
  (sum_Z (last_column attention_mask) ≠ Z.of_nat (length attention_mask) →
     ∀ out, last_logit_pool logits attention_mask = Ok out ↔
            Forall2 (λ rm x, py_index rm.1 (sum_Z rm.2 - 1) = Ok x)
                    (zip logits attention_mask) out).
Proof.
  intros HL HM Hbatch Hlogits Hmask. split.
  - by apply (last_logit_pool_left logits attention_mask L M).
  - intros Hright out.
    rewrite (last_logit_pool_right logits attention_mask L M) by done.
    by rewrite mapM_Ok_Forall2.
Qed.

Lemma last_logit_pool_position_rule_witness :
  (∃ out, last_logit_pool [[10; 11; 12]; [20; 21; 22]] [[0; 1; 1]; [1; 1; 1]] = Ok out ∧
          Forall2 (λ row x, row !! (3 - 1)%nat = Some x) [[10; 11; 12]; [20; 21; 22]] out) ∧
  last_logit_pool [[10; 11; 12]; [20; 21; 22]] [[1; 1; 0]; [1; 0; 0]] = Ok [11; 20].
Proof.
  split.
  - destruct (last_logit_pool_position_rule
                [[10; 11; 12]; [20; 21; 22]] [[0; 1; 1]; [1; 1; 1]] 3 3)
      as [Hleft _]; [lia | lia | reflexivity | repeat constructor..|].
    apply Hleft. reflexivity.
  - destruct (last_logit_pool_position_rule
                [[10; 11; 12]; [20; 21; 22]] [[1; 1; 0]; [1; 0; 0]] 3 3)
      as [_ Hright]; [lia | lia | reflexivity | repeat constructor..|].
    apply Hright; [vm_compute; discriminate | repeat constructor].
Defined.

Example last_logit_pool_branches :
  last_logit_pool [[10; 11; 12]; [20; 21; 22]] [[0; 1; 1]; [1; 1; 1]] = Ok [12; 22] ∧
  last_logit_pool [[10; 11; 12]; [20; 21; 22]] [[1; 1; 0]; [1; 0; 0]] = Ok [11; 20] ∧
  last_logit_pool [[10; 11; 12]; [20; 21; 22]] [[1; 1; 0]; [0; 1; 1]] = Ok [11; 21].
Proof. repeat split. Qed.

(** C10: in the right-padded branch, for a 0/1 mask of batch size and
    sequence length those of the logits, every selected position (sum of the
    row of the mask) - 1 lies in [-1, L), [last_logit_pool] returns, and a row
    whose mask is all zeros is read at position -1, which is the final
    sequence position. *)
Theorem right_padded_position_in_bounds {A} (logits : list (list A))
    (attention_mask : list (list Z)) (L : nat) :
  (0 < L)%nat →
  length logits = length attention_mask →
  Forall (λ row, length row = L) logits →
  Forall (λ row, length row = L) attention_mask →
  binary_mask attention_mask →
  sum_Z (last_column attention_mask) ≠ Z.of_nat (length attention_mask) →
  ∃ out, last_logit_pool logits attention_mask = Ok out ∧
    Forall2 (λ rm x,
               -1 ≤ sum_Z rm.2 - 1 < Z.of_nat L ∧
               py_index rm.1 (sum_Z rm.2 - 1) = Ok x ∧
               (Forall (λ m, m = 0) rm.2 →
                  sum_Z rm.2 - 1 = -1 ∧ rm.1 !! (L - 1)%nat = Some x))
            (zip logits attention_mask) out.
Proof.
  intros HL Hbatch Hlogits Hmask Hbin Hright.
  by apply (last_logit_pool_right_binary logits attention_mask L L).
Qed.

Lemma right_padded_position_in_bounds_witness :
  ∃ out, last_logit_pool [[10; 11; 12]; [20; 21; 22]] [[1; 1; 0]; [0; 0; 0]] = Ok out ∧
    Forall2 (λ rm x,
               -1 ≤ sum_Z rm.2 - 1 < Z.of_nat 3 ∧
               py_index rm.1 (sum_Z rm.2 - 1) = Ok x ∧
               (Forall (λ m, m = 0) rm.2 →
                  sum_Z rm.2 - 1 = -1 ∧ rm.1 !! (3 - 1)%nat = Some x))
            (zip [[10; 11; 12]; [20; 21; 22]] [[1; 1; 0]; [0; 0; 0]]) out.
Proof.
  apply (right_padded_position_in_bounds
           [[10; 11; 12]; [20; 21; 22]] [[1; 1; 0]; [0; 0; 0]] 3).
  - lia.
  - reflexivity.
  - repeat constructor.
  - repeat constructor.
  - unfold binary_mask. repeat first [apply Forall_nil_2 | apply Forall_cons_2]; lia.
  - vm_compute. discriminate.
Defined.

Example right_padded_all_zero_row :
  last_logit_pool [[10; 11; 12]; [20; 21; 22]] [[1; 1; 0]; [0; 0; 0]] = Ok [11; 22].
Proof. reflexivity. Qed.

(** ** The orchestrator: arguments that are not read *)

(** C7: with every other argument fixed, [compute_score] returns the same
    result for [normalize=True] and [normalize=False]. *)
Theorem compute_score_normalize_no_effect {F} (np_argsort : list Z → list nat)
    (self : MatroyshkaReranker.t F) (sentence_pairs : py_sentence_pairs)
    (batch_size max_length : Z) (prompt : option string) (use_dataloader : bool) :
  MatroyshkaReranker.compute_score np_argsort self sentence_pairs batch_size
    max_length prompt true use_dataloader =
  MatroyshkaReranker.compute_score np_argsort self sentence_pairs batch_size
    max_length prompt false use_dataloader.
Proof. reflexivity. Qed.

(** C8: with [use_dataloader=False], [compute_score] returns the same result
    for any two values of [prompt], [None] included. *)
Theorem compute_score_sync_ignores_prompt {F} (np_argsort : list Z → list nat)
    (self : MatroyshkaReranker.t F) (sentence_pairs : py_sentence_pairs)
    (batch_size max_length : Z) (prompt1 prompt2 : option string) (normalize : bool) :
  MatroyshkaReranker.compute_score np_argsort self sentence_pairs batch_size
    max_length prompt1 normalize false =
  MatroyshkaReranker.compute_score np_argsort self sentence_pairs batch_size
    max_length prompt2 normalize false.
Proof. reflexivity. Qed.

(** The prompt is read on the other path: there the built sequences change
    with it. *)
Example dataset_prompt_is_read :
  DatasetForReranker.prompt_inputs
    (DatasetForReranker.__init__ Sample.char_tokenizer [] 512 (Some "Yes?")) ≠
  DatasetForReranker.prompt_inputs
    (DatasetForReranker.__init__ Sample.char_tokenizer [] 512 None).
Proof. vm_compute. discriminate. Qed.

(** C9: on the empty list [compute_score] raises [IndexError], whatever the
    other arguments, and does not return an empty list of scores. *)
Theorem compute_score_empty_raises {F} (np_argsort : list Z → list nat)
    (self : MatroyshkaReranker.t F) (batch_size max_length : Z)
    (prompt : option string) (normalize use_dataloader : bool) :
  MatroyshkaReranker.compute_score np_argsort self (PairList []) batch_size
    max_length prompt normalize use_dataloader = Raise IndexError ∧
  MatroyshkaReranker.compute_score np_argsort self (StrList []) batch_size
    max_length prompt normalize use_dataloader = Raise IndexError.
Proof. split; reflexivity. Qed.

(** ** The collater *)

Lemma max_Z_ge (l : list Z) (x : Z) : x ∈ l → x ≤ max_Z l.
Proof.
  induction l as [|y l IH]; [by intros ?%elem_of_nil|].
  intros [->|Hin]%elem_of_cons; simpl; [lia|]. specialize (IH Hin). lia.
Qed.


Lemma round_up_smallest_multiple (m : Z) :
  smallest_multiple_of_8_from m
    (if bool_decide (m `mod` 8 ≠ 0) then (m `div` 8 + 1) * 8 else m).
Proof.
  pose proof (Z.div_mod m 8 ltac:(lia)) as Hdm.
  pose proof (Z.mod_pos_bound m 8 ltac:(lia)) as Hb.
  case_bool_decide as Hmod.
  - split; [by apply Z.divide_factor_r|]. split; [lia|].
    intros k [q ->] Hk. lia.
  - split; [apply Z.mod_divide; lia|]. split; [lia|]. intros; lia.
Qed.

Lemma all_same_length_const {A} (rows : list (list A)) (n : nat) :
  Forall (λ row, length row = n) rows → all_same_length rows = true.
Proof.
  destruct 1 as [|row rows Hrow Hrows]; [done|]. simpl.
  apply forallb_forall. intros row' Hin%list_elem_of_In.
  rewrite Forall_forall in Hrows. apply Nat.eqb_eq. rewrite Hrow. by apply Hrows.
Qed.

Lemma obj_items_encodings (features : list Encoding) :
  obj_items (PSeq (PItem <$> features)) = Ok features.
Proof.
  simpl. rewrite mapM_fmap_result.
  rewrite (mapM_Ok_fmap _ id) by done. by rewrite list_fmap_id.
Qed.

(** What [tokenizer.pad] returns on encodings with matching masks: every
    encoding is extended on the right up to the rounded length [n]. *)
Lemma tokenizer_pad_explicit (tok : Tokenizer) (features : list Encoding) :
  Forall (λ e, length (attention_mask e) = length (input_ids e)) features →
  ∃ n,
    smallest_multiple_of_8_from (longest_example features) n ∧
    (∀ e, e ∈ features → Z.of_nat (length (input_ids e)) ≤ n) ∧
    tokenizer_pad tok features 8 =
      Ok {| batch_input_ids :=
              (λ e, input_ids e ++
                    replicate (Z.to_nat (n - Z.of_nat (length (input_ids e))))
                              (pad_token_id tok)) <$> features;
            batch_attention_mask :=
              (λ e, attention_mask e ++
                    replicate (Z.to_nat (n - Z.of_nat (length (input_ids e)))) 0)
                <$> features |}.
Proof.
  intros Hmask. unfold tokenizer_pad. fold (longest_example features).
  pose proof (round_up_smallest_multiple (longest_example features)) as Hn.
  set (n := if bool_decide (longest_example features `mod` 8 ≠ 0)
            then (longest_example features `div` 8 + 1) * 8
            else longest_example features) in *.
  assert (Hlen : ∀ e, e ∈ features → Z.of_nat (length (input_ids e)) ≤ n).
  { intros e He. destruct Hn as (_ & Hge & _). etrans; [|exact Hge].
    apply max_Z_ge, list_elem_of_fmap. eauto. }
  exists n. split; [done|]. split; [done|].
  rewrite (all_same_length_const _ (Z.to_nat n)), (all_same_length_const _ (Z.to_nat n)).
  - done.
  - apply Forall_fmap, Forall_forall. intros e He. simpl.
    rewrite Forall_forall in Hmask.
    rewrite length_app, length_replicate, (Hmask e He). specialize (Hlen e He). lia.
  - apply Forall_fmap, Forall_forall. intros e He. simpl.
    rewrite length_app, length_replicate. specialize (Hlen e He). lia.
Qed.

Lemma tokenizer_pad_Ok (tok : Tokenizer) (features : list Encoding) :
  Forall (λ e, length (attention_mask e) = length (input_ids e)) features →
  ∃ collected n,
    tokenizer_pad tok features 8 = Ok collected ∧
    smallest_multiple_of_8_from (longest_example features) n ∧
    length (batch_input_ids collected) = length features ∧
    Forall (λ row, Z.of_nat (length row) = n) (batch_input_ids collected) ∧
    Forall (λ row, Z.of_nat (length row) = n) (batch_attention_mask collected).
Proof.
  intros Hmask.
  destruct (tokenizer_pad_explicit tok features Hmask) as (n & Hn & Hlen & Hpad).
  eexists _, n. split; [exact Hpad|]. split; [done|]. simpl.
  split; [by rewrite length_fmap|].
  rewrite Forall_forall in Hmask.
  split; apply Forall_fmap, Forall_forall; intros e He; simpl;
    rewrite length_app, length_replicate; specialize (Hlen e He);
    [|rewrite (Hmask e He)]; lia.
Qed.

(** On encodings with a mask of ones, as the pipeline builds them, the
    result is a padded batch with one row per encoding. *)
Lemma tokenizer_pad_full_masks (tok : Tokenizer) (features : list Encoding) :
  features ≠ [] →
  Forall (λ e, input_ids e ≠ [] ∧
               attention_mask e = replicate (length (input_ids e)) 1) features →
  ∃ collected L,
    tokenizer_pad tok features 8 = Ok collected ∧
    length (batch_attention_mask collected) = length features ∧
    padded_batch collected L.
Proof.
  intros Hne Hfull.
  destruct (tokenizer_pad_explicit tok features) as (n & Hn & Hlen & Hpad).
  { eapply Forall_impl; [exact Hfull|]. intros e [_ ->]. by rewrite length_replicate. }
  rewrite Forall_forall in Hfull.
  eexists _, (Z.to_nat n). split; [exact Hpad|]. unfold padded_batch. simpl.
  split; [by rewrite length_fmap|].
  split.
  { destruct features as [|e features]; [done|].
    destruct (Hfull e) as [Hids _]; [by left|].
    specialize (Hlen e ltac:(by left)). destruct (input_ids e); [done|]. simpl in Hlen. lia. }
  split; [by rewrite !length_fmap|].
  split; [|split].
  - apply Forall_fmap, Forall_forall. intros e He. simpl.
    rewrite length_app, !length_replicate. specialize (Hlen e He). lia.
  - apply Forall_fmap, Forall_forall. intros e He. simpl.
    destruct (Hfull e He) as [_ ->].
    rewrite length_app, !length_replicate. specialize (Hlen e He). lia.
  - unfold binary_mask. apply Forall_fmap, Forall_forall. intros e He. simpl.
    destruct (Hfull e He) as [_ ->].
    apply Forall_app. split; apply Forall_replicate; auto.
Qed.

(** On the argument of the synchronous path the collater is [tokenizer.pad]
    on the features, with the two length lists passed through. *)
Lemma collater_call_data (self : collater.t) (features : list Encoding)
    (query_lengths prompt_lengths : list Z) :
  features ≠ [] →
  collater.__call__ self (collater_data features query_lengths prompt_lengths) =
    collected ← tokenizer_pad (collater.tokenizer self) features 8;
    Ok (collected, PSeq (PInt <$> query_lengths), PSeq (PInt <$> prompt_lengths)).
Proof.
  intros Hne. unfold collater.__call__, collater_data.
  assert (H0 : ∀ a b c : pyobj, obj_getitem (PSeq [a; b; c]) 0 = Ok a) by done.
  assert (H1 : ∀ a b c : pyobj, obj_getitem (PSeq [a; b; c]) 1 = Ok b) by done.
  assert (H2 : ∀ a b c : pyobj, obj_getitem (PSeq [a; b; c]) 2 = Ok c) by done.
  rewrite H0, bind_Ok, H1, bind_Ok, H2, bind_Ok.
  destruct features as [|e features]; [done|].
  assert (Hfirst : obj_getitem (PSeq (PItem <$> e :: features)) 0 = Ok (PItem e)) by done.
  rewrite Hfirst, bind_Ok.
  change (obj_keys (PItem e)) with (Ok ["input_ids"; "attention_mask"]).
  rewrite bind_Ok, obj_items_encodings, bind_Ok. done.
Qed.

(** C5, as amended: for every non-empty batch of encodings whose masks are
    as long as their token ids, the collater returns a batch with one row per
    encoding, all rows of [input_ids] of one length, and that length is the
    smallest multiple of 8 that is at least the longest example of the
    batch; [max_length] does not cap it. *)
Theorem collater_pads_to_multiple_of_8 (tok : Tokenizer) (max_length : Z)
    (features : list Encoding) (query_lengths prompt_lengths : list Z) :
  features ≠ [] →
  Forall (λ e, length (attention_mask e) = length (input_ids e)) features →
  ∃ collected n,
    collater.__call__ (collater.__init__ tok max_length)
      (collater_data features query_lengths prompt_lengths) =
      Ok (collected, PSeq (PInt <$> query_lengths), PSeq (PInt <$> prompt_lengths)) ∧
    length (batch_input_ids collected) = length features ∧
    smallest_multiple_of_8_from (longest_example features) n ∧
    Forall (λ row, Z.of_nat (length row) = n) (batch_input_ids collected).
Proof.
  intros Hne Hmask.
  destruct (tokenizer_pad_Ok tok features Hmask)
    as (collected & n & Hpad & Hn & Hlen & Hrows & _).
  exists collected, n. split; [|done].
  rewrite collater_call_data by done.
  change (collater.tokenizer (collater.__init__ tok max_length)) with tok.
  by rewrite Hpad.
Qed.

Lemma collater_pads_to_multiple_of_8_witness :
  ∃ collected n,
    collater.__call__ (collater.__init__ Sample.char_tokenizer 8)
      (collater_data [build_item Sample.char_tokenizer [10] [63] 8 [65] [66; 67]] [3] [2]) =
      Ok (collected, PSeq (PInt <$> [3]), PSeq (PInt <$> [2])) ∧
    length (batch_input_ids collected) =
      length [build_item Sample.char_tokenizer [10] [63] 8 [65] [66; 67]] ∧
    smallest_multiple_of_8_from
      (longest_example [build_item Sample.char_tokenizer [10] [63] 8 [65] [66; 67]]) n ∧
    Forall (λ row, Z.of_nat (length row) = n) (batch_input_ids collected).
Proof.
  apply (collater_pads_to_multiple_of_8 Sample.char_tokenizer 8
           [build_item Sample.char_tokenizer [10] [63] 8 [65] [66; 67]] [3] [2]).
  - discriminate.
  - repeat constructor.
Defined.

(** The cap of C5 fails on a batch holding one 9-token example collated with
    [max_length = 8]: the rows have 16 entries, the capped rule asks for 8. *)
Lemma padded_to_capped_multiple_fails :
  ¬ padded_to_capped_multiple Sample.char_tokenizer 8
      [{| input_ids := [1; 2; 3; 4; 5; 6; 7; 8; 9];
          attention_mask := [1; 1; 1; 1; 1; 1; 1; 1; 1] |}] [4] [2].
Proof.
  intros Hclaim.
  destruct (Hclaim _ _ _ eq_refl) as (n & (_ & _ & Hmin) & Hrows).
  apply Forall_inv in Hrows. simpl in Hrows. subst n.
  specialize (Hmin 8). vm_compute in Hmin.
  apply Hmin; [by exists 1|discriminate|reflexivity].
Qed.

(** ** The sequence builder *)

(** With room left after the first sequence, [only_second] truncation keeps
    the first sequence and as much of the second as fits. *)
Lemma prepare_for_model_only_second (ids pair_ids : list Z) (max_length : Z) :
  Z.of_nat (length ids) < max_length →
  prepare_for_model ids pair_ids max_length =
    ids ++ take (Z.to_nat (max_length - Z.of_nat (length ids))) pair_ids.
Proof.
  intros Hroom. unfold prepare_for_model.
  rewrite bool_decide_true by lia. case_bool_decide as Hlong; simpl.
  - unfold truncate_only_second.
    rewrite bool_decide_false, bool_decide_true by lia.
    do 2 f_equal. lia.
  - by rewrite take_ge by lia.
Qed.

Lemma build_item_length (tok : Tokenizer) (sep_inputs prompt_inputs : list Z)
    (encode_max_length : Z) (query_inputs passage_inputs : list Z) :
  1 + Z.of_nat (length query_inputs) < encode_max_length →
  input_ids (build_item tok sep_inputs prompt_inputs encode_max_length
               query_inputs passage_inputs) =
    (bos_token_id tok :: query_inputs) ++
    take (Z.to_nat (encode_max_length - 1 - Z.of_nat (length query_inputs)))
         (sep_inputs ++ passage_inputs) ++
    sep_inputs ++ prompt_inputs.
Proof.
  intros Hroom. unfold build_item. simpl input_ids.
  rewrite prepare_for_model_only_second by (simpl length; lia).
  rewrite <- (assoc_L (++)). do 3 f_equal. simpl length. lia.
Qed.

(** C1, as amended: whenever the encode budget
    [max_length - len(sep_inputs) - len(prompt_inputs)] exceeds the length of
    [bos] + truncated query, the sequence [DatasetForReranker] builds is
    [bos] + truncated query + (separator + passage, cut to what the budget
    leaves) + separator + prompt, and its length is at most [max_length]. *)
Theorem dataset_sequence_within_max_length (tok : Tokenizer) (query passage : string)
    (max_length : Z) (prompt : option string)
    (ds := DatasetForReranker.__init__ tok [(query, passage)] max_length prompt)
    (query_inputs := tokenize_truncated tok ("A: " +:+ query) 32)
    (passage_inputs := tokenize_truncated tok ("B: " +:+ passage) max_length) :
  1 + Z.of_nat (length query_inputs) < DatasetForReranker.encode_max_length ds →
  DatasetForReranker.encode_max_length ds =
    max_length - Z.of_nat (length (DatasetForReranker.sep_inputs ds))
               - Z.of_nat (length (DatasetForReranker.prompt_inputs ds)) ∧
  ∃ ids,
    dataset_sequence tok query passage max_length prompt = Ok ids ∧
    ids = (bos_token_id tok :: query_inputs) ++
          take (Z.to_nat (DatasetForReranker.encode_max_length ds - 1
                          - Z.of_nat (length query_inputs)))
               (DatasetForReranker.sep_inputs ds ++ passage_inputs) ++
          DatasetForReranker.sep_inputs ds ++ DatasetForReranker.prompt_inputs ds ∧
    Z.of_nat (length ids) ≤ max_length.
Proof.
  intros Hroom. split; [reflexivity|].
  eexists. split; [reflexivity|].
  subst ds query_inputs passage_inputs.
  cbn [DatasetForReranker.__init__ DatasetForReranker.encode_max_length
       DatasetForReranker.sep_inputs DatasetForReranker.prompt_inputs
       DatasetForReranker.tokenizer DatasetForReranker.max_len
       DatasetForReranker.query_prefix DatasetForReranker.passage_prefix] in *.
  rewrite build_item_length by exact Hroom.
  split; [reflexivity|].
  simpl length. rewrite !length_app, length_take. lia.
Qed.

Lemma dataset_sequence_within_max_length_witness :
  ∃ ids,
    dataset_sequence Sample.char_tokenizer "what is X" Sample.long_passage 100 None = Ok ids ∧
    Z.of_nat (length ids) ≤ 100.
Proof.
  destruct (dataset_sequence_within_max_length Sample.char_tokenizer
              "what is X" Sample.long_passage 100 None) as (_ & ids & Hids & _ & Hlen).
  - vm_compute. reflexivity.
  - exists ids. split; [exact Hids | exact Hlen].
Defined.

(** Truncation never removes [bos], and separator and prompt are appended
    after it: for every tokenizer, a [max_length] that does not exceed the
    separator and prompt token counts is exceeded by the built sequence. *)
Lemma dataset_sequence_exceeds_small_max_length (tok : Tokenizer)
    (query passage : string) (max_length : Z) (prompt : option string) (ids : list Z) :
  max_length ≤
    Z.of_nat (length (tokenize tok sep)) +
    Z.of_nat (length (tokenize tok (default default_prompt prompt))) →
  dataset_sequence tok query passage max_length prompt = Ok ids →
  max_length < Z.of_nat (length ids).
Proof.
  intros Hsmall [= <-].
  cbn [DatasetForReranker.__init__ DatasetForReranker.encode_max_length
       DatasetForReranker.sep_inputs DatasetForReranker.prompt_inputs
       DatasetForReranker.tokenizer DatasetForReranker.max_len
       DatasetForReranker.query_prefix DatasetForReranker.passage_prefix].
  unfold build_item, prepare_for_model, truncate_only_second. simpl input_ids.
  destruct prompt as [p|]; simpl in Hsmall;
    repeat case_match; simplify_eq/=; rewrite !length_app; simpl; lia.
Qed.

(** The invariant as worded fails for a small [max_length]: with
    [max_length = 8] the separator and the prompt alone are longer, nothing
    can be cut from the query, and the sequence has 67 tokens. *)
Lemma sequence_within_max_length_fails :
  ¬ sequence_within_max_length Sample.char_tokenizer "q" "p" 8 None.
Proof.
  intros Hclaim. specialize (Hclaim _ eq_refl). vm_compute in Hclaim. done.
Qed.

(** The synchronous path computes its budget as
    [max_length + len(sep_inputs) + len(prompt_inputs)] (line 310): with
    [max_length = 100] and a 203-character passage the built sequence has
    171 tokens. *)
Example sync_sequence_exceeds_max_length :
  length <$> sync_sequences Sample.char_tokenizer 100 [("what is X", Sample.long_passage)]
  = [171%nat].
Proof. vm_compute. reflexivity. Qed.


(** ** Sorting by length and restoring the order *)

Lemma Sorted_seq_Z (j n : nat) : Sorted Z.le (Z.of_nat <$> seq j n).
Proof.
  revert j. induction n as [|n IH]; intros j; [constructor|].
  simpl. constructor; [apply IH|].
  destruct n; simpl; constructor. lia.
Qed.

Lemma fmap_lookup_total_seq (l : list Z) :
  (λ i : nat, l !!! i) <$> seq 0 (length l) = l.
Proof.
  apply list_eq. intros i. rewrite list_lookup_fmap.
  destruct (decide (i < length l)%nat) as [Hi|Hi].
  - rewrite lookup_seq_lt by done. simpl.
    destruct (lookup_lt_is_Some_2 l i Hi) as [x Hx].
    by rewrite (list_lookup_total_correct _ _ _ Hx), Hx.
  - rewrite lookup_seq_ge, lookup_ge_None_2 by lia. done.
Qed.

Section restore.
Variable np_argsort : list Z → list nat.
Hypothesis Hargsort : argsort_spec np_argsort.
Variables (idx : list nat) (n : nat).
Hypothesis Hidx : idx ≡ₚ seq 0 n.

Lemma inverse_perm : inverse_of np_argsort idx ≡ₚ seq 0 n.
Proof.
  unfold inverse_of. rewrite (argsort_perm _ Hargsort), length_fmap.
  by rewrite (Permutation_length Hidx), length_seq.
Qed.

(** Position [i] of the inverse holds the place of [i] in [idx]. *)
Lemma inverse_lookup (i j : nat) :
  inverse_of np_argsort idx !! i = Some j → idx !! j = Some i.
Proof.
  intros Hi.
  assert (Hsorted : (λ k : nat, (Z.of_nat <$> idx) !!! k) <$> (inverse_of np_argsort idx)
                    = Z.of_nat <$> seq 0 n).
  { apply (Sorted_unique Z.le).
    - apply (argsort_sorted _ Hargsort).
    - apply Sorted_seq_Z.
    - rewrite inverse_perm.
      assert (Hn : n = length (Z.of_nat <$> idx)).
      { by rewrite length_fmap, (Permutation_length Hidx), length_seq. }
      rewrite Hn at 1. rewrite fmap_lookup_total_seq. by rewrite Hidx. }
  assert (Hlt : (i < n)%nat).
  { apply lookup_lt_Some in Hi.
    by rewrite (Permutation_length inverse_perm), length_seq in Hi. }
  assert (Hi' := f_equal (λ l, l !! i) Hsorted). simpl in Hi'.
  rewrite !list_lookup_fmap, Hi, lookup_seq_lt in Hi' by done. simpl in Hi'.
  injection Hi' as Hi'.
  assert (Hj : (j < length idx)%nat).
  { rewrite (Permutation_length Hidx), length_seq.
    assert (j ∈ seq 0 n) as ?%elem_of_seq; [|lia].
    rewrite <- inverse_perm. by eapply list_elem_of_lookup_2. }
  destruct (lookup_lt_is_Some_2 idx j Hj) as [i' Hi''].
  rewrite (list_lookup_total_correct (Z.of_nat <$> idx) j (Z.of_nat i')) in Hi'.
  - rewrite Hi''. f_equal. lia.
  - by rewrite list_lookup_fmap, Hi''.
Qed.

Lemma restore_order_correct {F} (scores : list F) :
  length scores = n →
  ∃ restored,
    MatroyshkaReranker.restore_order np_argsort idx scores = Ok restored ∧
    length restored = n ∧
    ∀ j i, idx !! j = Some i → restored !! i = scores !! j.
Proof.
  intros Hlen. unfold MatroyshkaReranker.restore_order. fold (inverse_of np_argsort idx).
  destruct (mapM_Ok_total (λ k : nat, py_index scores (Z.of_nat k)) (inverse_of np_argsort idx))
    as [restored Hrestored].
  { intros k Hk. rewrite py_index_nat.
    rewrite inverse_perm in Hk. apply elem_of_seq in Hk.
    destruct (lookup_lt_is_Some_2 scores k) as [x ->]; [lia|]. by eexists. }
  exists restored. split; [done|].
  pose proof (mapM_Ok_length _ _ _ Hrestored) as Hlen'.
  rewrite (Permutation_length inverse_perm), length_seq in Hlen'.
  split; [done|]. intros j i Hj.
  assert (Hi : (i < n)%nat).
  { assert (i ∈ seq 0 n) as ?%elem_of_seq; [|lia].
    rewrite <- Hidx. by eapply list_elem_of_lookup_2. }
  destruct (lookup_lt_is_Some_2 (inverse_of np_argsort idx) i) as [j' Hj'].
  { by rewrite (Permutation_length inverse_perm), length_seq. }
  apply mapM_Ok_Forall2 in Hrestored.
  destruct (Forall2_lookup_l _ _ _ _ _ Hrestored Hj') as (x & Hx & Hpy).
  rewrite py_index_nat in Hpy.
  assert (j' = j) as ->.
  { apply inverse_lookup in Hj'.
    eapply NoDup_lookup; [|exact Hj'|exact Hj].
    rewrite Hidx. apply NoDup_seq. }
  rewrite Hx. by destruct (scores !! j); simplify_eq/=.
Qed.
End restore.

Lemma length_sort_correct (np_argsort : list Z → list nat)
    (pairs : list (string * string)) :
  argsort_spec np_argsort →
  ∃ idx sorted,
    MatroyshkaReranker.length_sort np_argsort pairs = Ok (idx, sorted) ∧
    idx ≡ₚ seq 0 (length pairs) ∧
    Forall2 (λ i p, pairs !! i = Some p) idx sorted.
Proof.
  intros Hargsort. unfold MatroyshkaReranker.length_sort.
  set (idx := np_argsort _).
  assert (Hidx : idx ≡ₚ seq 0 (length pairs)).
  { unfold idx. by rewrite (argsort_perm _ Hargsort), length_fmap. }
  destruct (mapM_Ok_total (λ i : nat, py_index pairs (Z.of_nat i)) idx)
    as [sorted Hsorted].
  { intros i Hi. rewrite py_index_nat. rewrite Hidx in Hi. apply elem_of_seq in Hi.
    destruct (lookup_lt_is_Some_2 pairs i) as [x ->]; [lia|]. by eexists. }
  exists idx, sorted. rewrite Hsorted. split; [done|]. split; [done|].
  apply mapM_Ok_Forall2 in Hsorted.
  eapply Forall2_impl; [exact Hsorted|]. intros i p. simpl.
  rewrite py_index_nat. by destruct (pairs !! i); intros; simplify_eq/=.
Qed.

(** The accumulation [all_scores.extend(scores)] over the batches is the
    concatenation of the per-batch scores. *)
Lemma foldM_extend {A F} (f : A → result (list F)) (batches : list A)
    (all_scores : list F) :
  foldM (λ all_scores data, scores ← f data; Ok (all_scores ++ scores))
        all_scores batches =
  (λ per_batch, all_scores ++ concat per_batch) <$> mapM f batches.
Proof.
  revert all_scores. induction batches as [|data batches IH]; intros all_scores.
  - simpl. by rewrite app_nil_r.
  - rewrite mapM_cons. simpl foldM. destruct (f data) as [scores|e]; [|done].
    rewrite !bind_Ok, IH. destruct (mapM f batches) as [per_batch|e]; [|done].
    simpl. by rewrite (assoc_L (++)).
Qed.

(** The merge-sort [argsort] meets the contract. *)
Lemma sample_argsort_spec : argsort_spec Sample.argsort.
Proof.
  split; intros keys; unfold Sample.argsort.
  - apply merge_sort_Permutation.
  - apply (Sorted_fmap _ (Sample.key_le keys)); [done|].
    assert (Total (Sample.key_le keys)) by (intros i j; unfold Sample.key_le; lia).
    apply (Sorted_merge_sort (Sample.key_le keys)).
Defined.

(** ** The two batching paths *)


(** The collater reads its argument as [[features, query_lengths,
    prompt_lengths]]; handed the list of samples of a [DataLoader] batch it
    raises: no [data[1]] or [data[2]] for fewer than three samples, and
    otherwise the first sample, a tuple, is padded as if it were the list of
    features. *)
Lemma collater_call_samples (self : collater.t) (samples : list (Encoding * Z * Z)) :
  ∃ e, collater.__call__ self
         (PSeq ((λ '(item, query_length, prompt_length),
                   PSeq [PItem item; PInt query_length; PInt prompt_length])
                  <$> samples)) = Raise e.
Proof.
  destruct samples as [|[[item0 ql0] pl0] [|[[item1 ql1] pl1] [|[[item2 ql2] pl2] samples]]].
  - by exists IndexError.
  - by exists IndexError.
  - by exists IndexError.
  - by exists TypeError.
Qed.

Lemma dataloader_batch_raises (ds : DatasetForReranker.t) (collate_fn : collater.t)
    (indices : list nat) :
  ∃ e, MatroyshkaReranker.dataloader_batch ds collate_fn indices = Raise e.
Proof.
  unfold MatroyshkaReranker.dataloader_batch.
  destruct (mapM _ indices) as [samples|e]; [|by exists e].
  rewrite bind_Ok. apply collater_call_samples.
Qed.

Lemma foldM_cons {A B} (f : B → A → result B) (b : B) (x : A) (l : list A) :
  foldM f b (x :: l) = b' ← f b x; foldM f b' l.
Proof. reflexivity. Qed.

Lemma foldM_Raise_head {A B} (f : B → A → result B) (b : B) (x : A) (l : list A)
    (e : pyerr) :
  f b x = Raise e → foldM f b (x :: l) = Raise e.
Proof. intros H. simpl. by rewrite H. Qed.

Lemma normalize_pairs_nonempty (sentence_pairs : py_sentence_pairs)
    (pairs : list (string * string)) :
  MatroyshkaReranker.normalize_pairs sentence_pairs = Ok pairs → pairs ≠ [].
Proof.
  destruct sentence_pairs as [[|p l]|[|q [|p [|r l]]]]; simpl; intros; by simplify_eq.
Qed.

(** X21: with [use_dataloader=True] every call raises, whatever the pairs,
    the batch size, the budget and the prompt: when nothing fails earlier,
    the first batch of the [DataLoader] already fails in the collater. *)
Lemma compute_score_dataloader_raises {F} (np_argsort : list Z → list nat)
    (self : MatroyshkaReranker.t F) (sentence_pairs : py_sentence_pairs)
    (batch_size max_length : Z) (prompt : option string) (normalize : bool) :
  argsort_spec np_argsort →
  ∃ e, MatroyshkaReranker.compute_score np_argsort self sentence_pairs
         batch_size max_length prompt normalize true = Raise e.
Proof.
  intros Hargsort. unfold MatroyshkaReranker.compute_score.
  destruct (MatroyshkaReranker.normalize_pairs sentence_pairs) as [pairs|e] eqn:Hnorm;
    [|by exists e].
  apply normalize_pairs_nonempty in Hnorm.
  destruct (length_sort_correct np_argsort pairs Hargsort)
    as (idx & sorted & Hsort & Hidx & Hsorted).
  rewrite bind_Ok, Hsort, bind_Ok.
  unfold MatroyshkaReranker.prepare_batches, MatroyshkaReranker.dataloader_batches.
  case_bool_decide as Hbs; [by exists ValueError|].
  rewrite bind_Ok.
  assert (Hlen : length sorted = length pairs).
  { apply Forall2_length in Hsorted.
    by rewrite <- Hsorted, (Permutation_length Hidx), length_seq. }
  change (DatasetForReranker.__len__ _) with (length sorted).
  rewrite length_seq, Hlen.
  destruct pairs as [|pair pairs]; [done|]. simpl length.
  rewrite <- cons_seq. cbn [chunks_fuel]. rewrite fmap_cons.
  match goal with
  | |- context [MatroyshkaReranker.dataloader_batch ?ds ?c ?ix :: _] =>
      destruct (dataloader_batch_raises ds c ix) as [e He]
  end.
  exists e. destruct (MatroyshkaReranker.model self) as [forward|forward].
  - rewrite (foldM_Raise_head _ _ _ _ e); [done|]. by rewrite He.
  - rewrite (foldM_Raise_head _ _ _ _ e); [done|]. by rewrite He.
Qed.

(** C2, at a failing input: on the two pairs of the scenario, with
    [batch_size=2], [max_length=512] and no prompt, [use_dataloader=True]
    raises [IndexError] and [use_dataloader=False] returns two scores. *)
Theorem compute_score_paths_disagree :
  MatroyshkaReranker.compute_score Sample.argsort Sample.final_reranker
    (PairList Sample.scenario) 2 512 None false true = Raise IndexError ∧
  MatroyshkaReranker.compute_score Sample.argsort Sample.final_reranker
    (PairList Sample.scenario) 2 512 None false false = Ok (ScoreList [7721; 8847]).
Proof. split; vm_compute; reflexivity. Qed.

(** ** Layer-wise accumulation *)

Section extend_layers.
Context {F : Type}.

Lemma extend_layer_middle (done_acc done_scores acc scores : list (list F))
    (a s : list F) :
  length done_acc = length done_scores →
  MatroyshkaReranker.extend_layer (done_scores ++ s :: scores)
    (done_acc ++ a :: acc) (length done_acc) =
  Ok ((done_acc ++ [a ++ s]) ++ acc).
Proof.
  intros Hdone. unfold MatroyshkaReranker.extend_layer.
  rewrite !py_index_nat, list_lookup_middle by done.
  rewrite Hdone, list_lookup_middle by done. cbn [or_raise].
  rewrite !bind_Ok, <- Hdone.
  rewrite insert_app_r_alt, Nat.sub_diag by lia. cbn [insert list_insert].
  by rewrite <- (assoc_L (++)).
Qed.

Lemma extend_loop (done_acc done_scores acc scores : list (list F)) :
  length done_acc = length done_scores →
  length acc = length scores →
  foldM (MatroyshkaReranker.extend_layer (done_scores ++ scores)) (done_acc ++ acc)
        (seq (length done_acc) (length scores)) =
  Ok (done_acc ++ zip_with (++) acc scores).
Proof.
  revert done_acc done_scores acc.
  induction scores as [|s scores IH]; intros done_acc done_scores acc Hdone Hlen.
  - destruct acc; [|done]. done.
  - destruct acc as [|a acc]; [done|]. simpl in Hlen.
    simpl seq. rewrite foldM_cons, extend_layer_middle, bind_Ok by done.
    replace (done_scores ++ s :: scores) with ((done_scores ++ [s]) ++ scores)
      by by rewrite <- (assoc_L (++)).
    replace (S (length done_acc)) with (length (done_acc ++ [a ++ s]))
      by (rewrite length_app; simpl; lia).
    rewrite IH.
    + by rewrite <- (assoc_L (++)).
    + rewrite !length_app. simpl. lia.
    + lia.
Qed.

(** With as many lists as layers, or none yet when there are no layers,
    [extend_layers] appends layer by layer. *)
Lemma extend_layers_zip (all_scores scores : list (list F)) :
  length all_scores = length scores →
  MatroyshkaReranker.extend_layers all_scores scores =
    Ok (zip_with (++) all_scores scores).
Proof.
  intros Hlen. unfold MatroyshkaReranker.extend_layers.
  assert ((if bool_decide (length all_scores = 0%nat)
           then replicate (length scores) [] else all_scores) = all_scores) as ->.
  { case_bool_decide as H0; [|done].
    rewrite <- Hlen, H0. by destruct all_scores. }
  apply (extend_loop [] [] all_scores scores); done.
Qed.

Lemma extend_layers_first (scores : list (list F)) :
  MatroyshkaReranker.extend_layers [] scores = Ok scores.
Proof.
  unfold MatroyshkaReranker.extend_layers. simpl.
  pose proof (extend_loop [] [] (replicate (length scores) []) scores) as H.
  simpl in H. rewrite H by (by rewrite length_replicate || done).
  f_equal. clear H. induction scores as [|s scores IH]; [done|].
  simpl. by rewrite IH.
Qed.
End extend_layers.

Section layer_loop.
Context {A F : Type}.
Variable g : A → result (list (list F)).

Lemma zip_with_app_assoc (xs ys zs : list (list F)) :
  zip_with (++) (zip_with (++) xs ys) zs = zip_with (++) xs (zip_with (++) ys zs).
Proof.
  revert ys zs. induction xs as [|x xs IH]; intros [|y ys] [|z zs]; simpl; try done.
  by rewrite IH, (assoc_L (++)).
Qed.

Lemma layer_columns_nil (k : nat) (acc : list (list F)) :
  length acc = k → zip_with (++) acc (layer_columns k []) = acc.
Proof.
  intros <-. unfold layer_columns, layer_column. simpl.
  generalize 0%nat.
  induction acc as [|a acc IH]; intros j; [done|].
  simpl. by rewrite IH, app_nil_r.
Qed.

Lemma layer_columns_cons (k : nat) (scores : list (list F))
    (per_batch : list (list (list F))) :
  length scores = k →
  layer_columns k (scores :: per_batch) =
    zip_with (++) scores (layer_columns k per_batch).
Proof.
  intros Hlen. apply list_eq. intros l.
  unfold layer_columns. rewrite lookup_zip_with, !list_lookup_fmap.
  destruct (decide (l < k)%nat) as [Hl|Hl].
  - rewrite lookup_seq_lt by done.
    destruct (lookup_lt_is_Some_2 scores l) as [s Hs]; [lia|].
    rewrite Hs. simpl. unfold layer_column. simpl. by rewrite Hs.
  - rewrite lookup_seq_ge by lia. simpl.
    rewrite (lookup_ge_None_2 scores l) by lia. done.
Qed.

Lemma layer_loop_from (batches : list A) (per_batch : list (list (list F)))
    (k : nat) (acc : list (list F)) :
  mapM g batches = Ok per_batch →
  Forall (λ scores, length scores = k) per_batch →
  length acc = k →
  foldM (λ all_scores data,
           scores ← g data; MatroyshkaReranker.extend_layers all_scores scores)
        acc batches =
  Ok (zip_with (++) acc (layer_columns k per_batch)).
Proof.
  revert per_batch acc.
  induction batches as [|data batches IH]; intros per_batch acc Hg Hk Hacc.
  - injection Hg as <-. simpl. by rewrite layer_columns_nil.
  - rewrite mapM_cons in Hg.
    destruct (g data) as [scores|] eqn:Hdata; [|done]. rewrite bind_Ok in Hg.
    destruct (mapM g batches) as [rest|] eqn:Hrest; [|done].
    injection Hg as <-. apply Forall_cons in Hk as [Hscores Hk].
    rewrite foldM_cons, Hdata, bind_Ok.
    rewrite extend_layers_zip, bind_Ok by lia.
    rewrite (IH rest); [|done|done|].
    + by rewrite zip_with_app_assoc, <- layer_columns_cons.
    + rewrite length_zip_with. lia.
Qed.

(** The accumulation of lines 289-293 and 373-377 over all batches gives
    one list per layer, the concatenation of that layer's scores. *)
Lemma layer_loop (batches : list A) (per_batch : list (list (list F))) (k : nat) :
  mapM g batches = Ok per_batch →
  Forall (λ scores, length scores = k) per_batch →
  per_batch ≠ [] ∨ k = 0%nat →
  foldM (λ all_scores data,
           scores ← g data; MatroyshkaReranker.extend_layers all_scores scores)
        [] batches =
  Ok (layer_columns k per_batch).
Proof.
  intros Hg Hk Hne. destruct batches as [|data batches].
  - injection Hg as <-. destruct Hne as [?| ->]; done.
  - rewrite mapM_cons in Hg.
    destruct (g data) as [scores|] eqn:Hdata; [|done]. rewrite bind_Ok in Hg.
    destruct (mapM g batches) as [rest|] eqn:Hrest; [|done].
    injection Hg as <-. apply Forall_cons in Hk as [Hscores Hk].
    rewrite foldM_cons, Hdata, bind_Ok, extend_layers_first, bind_Ok.
    rewrite (layer_loop_from batches rest k) by done.
    by rewrite layer_columns_cons.
Qed.
End layer_loop.

(** ** The synchronous path returns *)

Lemma chunks_fuel_concat {A} (fuel n : nat) (l : list A) :
  (0 < n)%nat → (length l ≤ fuel)%nat →
  concat (chunks_fuel fuel n l) = l ∧ Forall (λ c, c ≠ []) (chunks_fuel fuel n l).
Proof.
  intros Hn. revert l. induction fuel as [|fuel IH]; intros l Hfuel.
  - destruct l; [done|simpl in *; lia].
  - destruct l as [|x l]; [done|].
    cbn [chunks_fuel]. destruct (IH (drop n (x :: l))) as [Hcat Hne].
    { rewrite length_drop. simpl in *. lia. }
    split.
    + cbn [concat]. by rewrite Hcat, take_drop.
    + constructor; [|done]. destruct n; [lia|done].
Qed.

Lemma mapM_Ok_rel {A B} (f : A → result B) (l : list A) (R : A → B → Prop) :
  (∀ x, x ∈ l → ∃ y, f x = Ok y ∧ R x y) →
  ∃ k, mapM f l = Ok k ∧ Forall2 R l k.
Proof.
  induction l as [|x l IH]; intros H.
  - exists []. by split.
  - destruct (H x) as (y & Hy & HR); [by left|].
    destruct IH as (k & Hk & HRs); [intros; apply H; by right|].
    exists (y :: k). rewrite mapM_cons, Hy, bind_Ok, Hk, bind_Ok.
    split; [done|]. by constructor.
Qed.


Lemma build_item_full (tok : Tokenizer) (sep_inputs prompt_inputs : list Z)
    (encode_max_length : Z) (query_inputs passage_inputs : list Z) :
  let item := build_item tok sep_inputs prompt_inputs encode_max_length
                query_inputs passage_inputs in
  input_ids item ≠ [] ∧ attention_mask item = replicate (length (input_ids item)) 1.
Proof.
  split; [|done]. unfold build_item, prepare_for_model, truncate_only_second.
  simpl input_ids. repeat case_match; simplify_eq/=; done.
Qed.

(** Every batch of the synchronous path reaches the backend as a padded
    batch with one row per pair. *)
Lemma sync_batch_Ok (tok : Tokenizer) (max_length : Z)
    (sep_inputs prompt_inputs : list Z) (encode_max_length : Z)
    (batch_sentences : list (string * string)) :
  batch_sentences ≠ [] →
  ∃ collected query_lengths prompt_lengths L,
    MatroyshkaReranker.sync_batch tok max_length sep_inputs prompt_inputs
      encode_max_length batch_sentences
      = Ok (collected, query_lengths, prompt_lengths) ∧
    length (batch_attention_mask collected) = length batch_sentences ∧
    padded_batch collected L.
Proof.
  intros Hne. unfold MatroyshkaReranker.sync_batch.
  set (pairs := zip _ _).
  match goal with
  | |- context [PSeq [PSeq (PItem <$> ?a); PSeq (PInt <$> ?b); PSeq (PInt <$> ?c)]] =>
      set (batch_inputs := a); set (query_lengths := b); set (prompt_lengths := c)
  end.
  change (PSeq [PSeq (PItem <$> batch_inputs);
                PSeq (PInt <$> query_lengths);
                PSeq (PInt <$> prompt_lengths)])
    with (collater_data batch_inputs query_lengths prompt_lengths).
  assert (Hlen : length batch_inputs = length batch_sentences).
  { unfold batch_inputs, pairs. rewrite length_fmap, length_zip_with_l_eq;
      by rewrite !length_fmap. }
  assert (Hne' : batch_inputs ≠ []).
  { intros H. rewrite H in Hlen. destruct batch_sentences; done. }
  destruct (tokenizer_pad_full_masks tok batch_inputs Hne')
    as (collected & L & Hpad & Hrows & Hpadded).
  { unfold batch_inputs. apply Forall_fmap, Forall_forall.
    intros [query_inputs passage_inputs] _. apply build_item_full. }
  rewrite collater_call_data by done.
  change (collater.tokenizer (collater.__init__ tok max_length)) with tok.
  rewrite Hpad. exists collected, (PSeq (PInt <$> query_lengths)),
    (PSeq (PInt <$> prompt_lengths)), L.
  split; [done|]. split; [by rewrite Hrows|]. done.
Qed.

(** A shaped backend scores every row of such a batch. *)
Lemma final_layer_batch_Ok {F}
    (forward : Batch → pyobj → pyobj → list (list (list F))) (yes_loc : Z)
    (inputs : Batch) (query_lengths prompt_lengths : pyobj) (L : nat) :
  final_backend_shaped forward yes_loc →
  padded_batch inputs L →
  ∃ scores,
    MatroyshkaReranker.final_layer_batch forward yes_loc
      (Ok (inputs, query_lengths, prompt_lengths)) = Ok scores ∧
    length scores = length (batch_attention_mask inputs).
Proof.
  intros Hshaped Hpadded.
  unfold MatroyshkaReranker.final_layer_batch. rewrite bind_Ok.
  specialize (Hshaped inputs query_lengths prompt_lengths L Hpadded).
  destruct Hpadded as (HL & _ & _ & Hshape & Hbin).
  set (logits := forward inputs query_lengths prompt_lengths) in *.
  unfold MatroyshkaReranker.final_layer_scores.
  assert (Hlogits : Forall (λ row, length row = L) logits).
  { apply Forall_lookup. intros i row Hrow.
    destruct (Forall2_lookup_l _ _ _ _ _ Hshaped Hrow) as (mask_row & Hm & Hlen & _).
    rewrite Hlen. rewrite Forall_lookup in Hshape. by eapply Hshape. }
  destruct (last_logit_pool_Ok logits (batch_attention_mask inputs) L L)
    as (pooled & Hpooled & Hfrom); [done|done|by eapply Forall2_length|done..|].
  rewrite Hpooled, bind_Ok.
  destruct (mapM_Ok_total (λ row : list F, py_index row yes_loc) pooled)
    as [scores Hscores].
  { intros v (i & Hv)%list_elem_of_lookup.
    destruct (Forall2_lookup_r _ _ _ _ _ Hfrom Hv) as (row & Hrow & Hin).
    destruct (Forall2_lookup_l _ _ _ _ _ Hshaped Hrow) as (mask_row & _ & _ & Hvocab).
    rewrite Forall_forall in Hvocab. specialize (Hvocab v Hin).
    apply py_index_in_bounds. lia. }
  exists scores. split; [done|].
  rewrite (mapM_Ok_length _ _ _ Hscores).
  rewrite <- (Forall2_length _ _ _ Hfrom). by eapply Forall2_length.
Qed.

Lemma sync_batches_Ok (tok : Tokenizer) (sorted : list (string * string))
    (batch_size max_length : Z) (prompt : option string) :
  0 < batch_size →
  ∃ chunks,
    concat chunks = sorted ∧ Forall (λ c, c ≠ []) chunks ∧
    MatroyshkaReranker.prepare_batches tok false sorted batch_size max_length prompt =
      Ok (MatroyshkaReranker.sync_batch tok max_length
            (tokenize tok sep) (tokenize tok default_prompt)
            (max_length + Z.of_nat (length (tokenize tok sep))
                        + Z.of_nat (length (tokenize tok default_prompt)))
            <$> chunks).
Proof.
  intros Hbs.
  destruct (chunks_fuel_concat (length sorted) (Z.to_nat batch_size) sorted)
    as [Hcat Hne]; [lia|done|].
  eexists. split; [exact Hcat|]. split; [exact Hne|].
  unfold MatroyshkaReranker.prepare_batches, MatroyshkaReranker.sync_batches,
    batch_slices.
  by rewrite !bool_decide_false by lia.
Qed.

Lemma Forall2_length_concat {A B} (chunks : list (list A)) (per_batch : list (list B)) :
  Forall2 (λ c scores, length scores = length c) chunks per_batch →
  length (concat per_batch) = length (concat chunks).
Proof.
  induction 1 as [|c scores chunks per_batch Hlen _ IH]; [done|].
  simpl. rewrite !length_app. lia.
Qed.

(** With [use_dataloader=False], a positive batch size and a shaped
    backend, every batch is scored and there is one score per pair. *)
Lemma sync_final_scores_exist {F} (tok : Tokenizer)
    (forward : Batch → pyobj → pyobj → list (list (list F))) (yes_loc : Z)
    (sorted : list (string * string)) (batch_size max_length : Z)
    (prompt : option string) :
  final_backend_shaped forward yes_loc →
  0 < batch_size →
  ∃ batches per_batch,
    MatroyshkaReranker.prepare_batches tok false sorted batch_size max_length prompt
      = Ok batches ∧
    mapM (MatroyshkaReranker.final_layer_batch forward yes_loc) batches
      = Ok per_batch ∧
    length (concat per_batch) = length sorted.
Proof.
  intros Hshaped Hbs.
  destruct (sync_batches_Ok tok sorted batch_size max_length prompt Hbs)
    as (chunks & Hcat & Hchunks & Hbatches).
  set (build := MatroyshkaReranker.sync_batch _ _ _ _ _) in Hbatches.
  destruct (mapM_Ok_rel
              (MatroyshkaReranker.final_layer_batch forward yes_loc ∘ build) chunks
              (λ c scores, length scores = length c))
    as (per_batch & Hscores & Hlens).
  { intros c Hc. rewrite Forall_forall in Hchunks.
    destruct (sync_batch_Ok tok max_length (tokenize tok sep)
                (tokenize tok default_prompt)
                (max_length + Z.of_nat (length (tokenize tok sep))
                            + Z.of_nat (length (tokenize tok default_prompt)))
                c (Hchunks c Hc))
      as (collected & ql & pl & L & Hbuild & Hrows & Hpadded).
    destruct (final_layer_batch_Ok forward yes_loc collected ql pl L
                Hshaped Hpadded) as (scores & Hsc & Hlen).
    exists scores. unfold compose, build. rewrite Hbuild. split; [done|].
    by rewrite Hlen. }
  rewrite <- mapM_fmap_result in Hscores.
  eexists _, per_batch. split; [exact Hbatches|]. split; [exact Hscores|].
  by rewrite (Forall2_length_concat _ _ Hlens), Hcat.
Qed.

(** A shaped layer-wise backend scores every row of a batch at each of its
    [k] exit layers. *)
Lemma layer_wise_batch_Ok {F}
    (forward : Batch → pyobj → pyobj → list (list (list F)) * list (list (list Z)))
    (k : nat) (inputs : Batch) (query_lengths prompt_lengths : pyobj) (L : nat) :
  layered_backend_shaped forward k →
  padded_batch inputs L →
  ∃ scores,
    MatroyshkaReranker.layer_wise_batch forward
      (Ok (inputs, query_lengths, prompt_lengths)) = Ok scores ∧
    length scores = k ∧
    Forall (λ layer, length layer = length (batch_attention_mask inputs)) scores.
Proof.
  intros Hshaped Hpadded. unfold MatroyshkaReranker.layer_wise_batch. rewrite bind_Ok.
  destruct (Hshaped inputs query_lengths prompt_lengths L Hpadded) as [Hk Hlayers].
  destruct (forward inputs query_lengths prompt_lengths) as [logits masks].
  simpl in Hk, Hlayers. unfold MatroyshkaReranker.layer_wise_scores.
  assert (Hzip : length (zip logits masks) = length logits).
  { apply length_zip_with_l_eq. by eapply Forall2_length. }
  rewrite <- Hzip.
  rewrite (mapM_seq_lookup _ (λ lm, last_logit_pool lm.1 lm.2)).
  2:{ intros i [l m] (? & ? & [= <- <-] & Hl & Hm)%lookup_zip_with_Some.
      by rewrite !py_index_nat, Hl, Hm. }
  destruct (mapM_Ok_rel (λ lm : list (list F) * list (list Z), last_logit_pool lm.1 lm.2)
              (zip logits masks)
              (λ _ layer, length layer = length (batch_attention_mask inputs)))
    as (scores & Hscores & Hlens).
  { intros [l m] (i & (? & ? & [= <- <-] & Hl & Hm)%lookup_zip_with_Some)%list_elem_of_lookup.
    destruct (Forall2_lookup_lr _ _ _ _ _ _ Hlayers Hl Hm)
      as (Hbatch & Hbin & L' & HL & Hrows).
    destruct (last_logit_pool_Ok l m L' L') as (out & Hout & Hfrom); try done.
    - by eapply Forall2_length.
    - eapply Forall2_Forall_l; [exact Hrows|]. apply Forall_true. by intros ?? [? _].
    - eapply Forall2_Forall_r; [exact Hrows|]. apply Forall_true. by intros ?? [_ ?].
    - exists out. split; [done|]. by rewrite <- (Forall2_length _ _ _ Hfrom). }
  exists scores. split; [done|]. split.
  - apply Forall2_length in Hlens. by rewrite <- Hlens, Hzip.
  - by eapply Forall2_Forall_r; [exact Hlens|apply Forall_true].
Qed.

Lemma layer_column_length {A F} (chunks : list (list A))
    (per_batch : list (list (list F))) (k l : nat) :
  Forall2 (λ c scores, length scores = k ∧
                       Forall (λ layer, length layer = length c) scores)
          chunks per_batch →
  (l < k)%nat →
  length (layer_column l per_batch) = length (concat chunks).
Proof.
  intros Hrel Hl. unfold layer_column.
  induction Hrel as [|c scores chunks per_batch [Hk Hrows] _ IH]; [done|].
  csimpl. rewrite !length_app, IH.
  destruct (lookup_lt_is_Some_2 scores l) as [layer Hlayer]; [lia|].
  rewrite Hlayer. simpl. rewrite Forall_lookup in Hrows.
  by rewrite (Hrows _ _ Hlayer).
Qed.

(** With [use_dataloader=False], a positive batch size and a shaped
    layer-wise backend, every batch is scored at [k] layers, and every layer
    has one score per pair. *)
Lemma sync_layer_scores_exist {F} (tok : Tokenizer)
    (forward : Batch → pyobj → pyobj → list (list (list F)) * list (list (list Z)))
    (k : nat) (sorted : list (string * string)) (batch_size max_length : Z)
    (prompt : option string) :
  layered_backend_shaped forward k →
  0 < batch_size →
  ∃ batches per_batch,
    MatroyshkaReranker.prepare_batches tok false sorted batch_size max_length prompt
      = Ok batches ∧
    mapM (MatroyshkaReranker.layer_wise_batch forward) batches = Ok per_batch ∧
    Forall (λ scores, length scores = k) per_batch ∧
    ∀ l, (l < k)%nat → length (layer_column l per_batch) = length sorted.
Proof.
  intros Hshaped Hbs.
  destruct (sync_batches_Ok tok sorted batch_size max_length prompt Hbs)
    as (chunks & Hcat & Hchunks & Hbatches).
  set (build := MatroyshkaReranker.sync_batch _ _ _ _ _) in Hbatches.
  destruct (mapM_Ok_rel
              (MatroyshkaReranker.layer_wise_batch forward ∘ build) chunks
              (λ c scores, length scores = k ∧
                           Forall (λ layer, length layer = length c) scores))
    as (per_batch & Hscores & Hrel).
  { intros c Hc. rewrite Forall_forall in Hchunks.
    destruct (sync_batch_Ok tok max_length (tokenize tok sep)
                (tokenize tok default_prompt)
                (max_length + Z.of_nat (length (tokenize tok sep))
                            + Z.of_nat (length (tokenize tok default_prompt)))
                c (Hchunks c Hc))
      as (collected & ql & pl & L & Hbuild & Hrows & Hpadded).
    destruct (layer_wise_batch_Ok forward k collected ql pl L Hshaped Hpadded)
      as (scores & Hsc & Hk & Hlens).
    exists scores. unfold compose, build. rewrite Hbuild. split; [done|].
    split; [done|]. by rewrite <- Hrows. }
  rewrite <- mapM_fmap_result in Hscores.
  eexists _, per_batch. split; [exact Hbatches|]. split; [exact Hscores|]. split.
  - eapply Forall2_Forall_r; [exact Hrel|]. apply Forall_true. by intros ?? [? _].
  - intros l Hl. by rewrite (layer_column_length chunks per_batch k l Hrel Hl), Hcat.
Qed.

(** ** The order and the shape of the result *)

Lemma sample_final_shaped : final_backend_shaped Sample.final_forward 1.
Proof.
  intros inputs ql pl L (HL & Hcount & Hids & Hmask & _). unfold Sample.final_forward.
  apply Forall2_fmap_l, Forall2_same_length_lookup_2; [done|].
  intros i ids_row mask_row Hi Hm. unfold compose. cbn beta. rewrite length_fmap.
  rewrite Forall_lookup in Hids. rewrite Forall_lookup in Hmask.
  rewrite (Hids _ _ Hi), (Hmask _ _ Hm). split; [done|].
  apply Forall_fmap, Forall_true. intros token. simpl. lia.
Qed.

Lemma sample_layered_shaped : layered_backend_shaped Sample.layered_forward 3.
Proof.
  intros inputs ql pl L (HL & Hcount & Hids & Hmask & Hbin).
  split; [done|]. unfold Sample.layered_forward. cbn [fst snd].
  apply Forall2_fmap_l. change (replicate 3 ?m) with [m; m; m].
  assert (Hlayer : ∀ k : Z,
    length ((λ row : list Z, (λ _ : Z, sum_Z row + 1000 * k) <$> row)
              <$> batch_input_ids inputs) = length (batch_attention_mask inputs) ∧
    binary_mask (batch_attention_mask inputs) ∧
    ∃ L', (0 < L')%nat ∧
      Forall2 (λ logits_row mask_row : list Z,
                 length logits_row = L' ∧ length mask_row = L')
        ((λ row : list Z, (λ _ : Z, sum_Z row + 1000 * k) <$> row)
           <$> batch_input_ids inputs)
        (batch_attention_mask inputs)).
  { intros k. split; [by rewrite length_fmap|]. split; [done|].
    exists L. split; [done|].
    apply Forall2_fmap_l, Forall2_same_length_lookup_2; [done|].
    intros i ids_row mask_row Hi Hm. unfold compose. cbn beta. rewrite length_fmap.
    rewrite Forall_lookup in Hids. rewrite Forall_lookup in Hmask.
    by rewrite (Hids _ _ Hi), (Hmask _ _ Hm). }
  repeat (apply Forall2_cons_2; [apply Hlayer|]). apply Forall2_nil_2.
Qed.

(** C4: for a non-empty list of pairs, [length_sort] returns a permutation
    [idx] of the positions and the pairs in that order; whenever the batches
    of the sorted pairs give one score per pair, [compute_score] returns a
    list with one score per pair, and the score computed at sorted position
    [j], that of the pair [pairs[idx[j]]], is returned at index [idx[j]]:
    entry [i] of the result is the score of [pairs[i]].  On the synchronous
    path, with a positive batch size and a shaped backend, the batches do
    give one score per pair. *)
Theorem compute_score_restores_input_order {F} (np_argsort : list Z → list nat)
    (self : MatroyshkaReranker.t F)
    (forward : Batch → pyobj → pyobj → list (list (list F)))
    (pairs : list (string * string)) (batch_size max_length : Z)
    (prompt : option string) (normalize use_dataloader : bool) :
  argsort_spec np_argsort →
  MatroyshkaReranker.model self = FinalLayer forward →
  pairs ≠ [] →
  ∃ idx sorted,
    MatroyshkaReranker.length_sort np_argsort pairs = Ok (idx, sorted) ∧
    idx ≡ₚ seq 0 (length pairs) ∧
    Forall2 (λ i p, pairs !! i = Some p) idx sorted ∧
    (∀ batches per_batch,
      MatroyshkaReranker.prepare_batches (MatroyshkaReranker.tokenizer self)
        use_dataloader sorted batch_size max_length prompt = Ok batches →
      mapM (MatroyshkaReranker.final_layer_batch forward
              (MatroyshkaReranker.yes_loc self)) batches = Ok per_batch →
      length (concat per_batch) = length pairs →
      ∃ scores,
        MatroyshkaReranker.compute_score np_argsort self (PairList pairs)
          batch_size max_length prompt normalize use_dataloader
          = Ok (ScoreList scores) ∧
        length scores = length pairs ∧
        ∀ j i, idx !! j = Some i → scores !! i = concat per_batch !! j) ∧
    (use_dataloader = false →
     0 < batch_size →
     final_backend_shaped forward (MatroyshkaReranker.yes_loc self) →
     ∃ batches per_batch,
       MatroyshkaReranker.prepare_batches (MatroyshkaReranker.tokenizer self)
         use_dataloader sorted batch_size max_length prompt = Ok batches ∧
       mapM (MatroyshkaReranker.final_layer_batch forward
               (MatroyshkaReranker.yes_loc self)) batches = Ok per_batch ∧
       length (concat per_batch) = length pairs).
Proof.
  intros Hargsort Hmodel Hne.
  destruct (length_sort_correct np_argsort pairs Hargsort)
    as (idx & sorted & Hsort & Hidx & Hsorted).
  exists idx, sorted. do 3 (split; [done|]). split.
  - intros batches per_batch Hbatches Hscores Hlen.
    destruct (restore_order_correct np_argsort Hargsort idx (length pairs) Hidx
                (concat per_batch) Hlen) as (scores & Hrestore & Hlen' & Horder).
    exists scores. split; [|done].
    unfold MatroyshkaReranker.compute_score.
    destruct pairs as [|pair pairs]; [done|].
    change (MatroyshkaReranker.normalize_pairs (PairList (pair :: pairs)))
      with (Ok (pair :: pairs)).
    rewrite bind_Ok, Hsort, bind_Ok, Hbatches, bind_Ok, Hmodel.
    rewrite foldM_extend, Hscores. simpl app.
    change ((λ per_batch0 : list (list F), concat per_batch0) <$> Ok per_batch)
      with (Ok (concat per_batch)).
    by rewrite bind_Ok, Hrestore.
  - intros -> Hbs Hshaped.
    destruct (sync_final_scores_exist (MatroyshkaReranker.tokenizer self)
                forward (MatroyshkaReranker.yes_loc self) sorted batch_size
                max_length prompt Hshaped Hbs)
      as (batches & per_batch & Hbatches & Hscores & Hlen).
    exists batches, per_batch. do 2 (split; [done|]).
    rewrite Hlen. apply Forall2_length in Hsorted.
    by rewrite <- Hsorted, (Permutation_length Hidx), length_seq.
Qed.

Lemma compute_score_restores_input_order_witness :
  ∃ scores,
    MatroyshkaReranker.compute_score Sample.argsort Sample.final_reranker
      (PairList Sample.scenario) 1 512 None false false = Ok (ScoreList scores) ∧
    length scores = length Sample.scenario.
Proof.
  destruct (compute_score_restores_input_order Sample.argsort
              Sample.final_reranker Sample.final_forward Sample.scenario 1 512 None false false)
    as (idx & sorted & _ & _ & _ & Horder & Hexist).
  - exact sample_argsort_spec.
  - reflexivity.
  - discriminate.
  - destruct Hexist as (batches & per_batch & Hbatches & Hscores & Hlen).
    + reflexivity.
    + lia.
    + exact sample_final_shaped.
    + destruct (Horder batches per_batch Hbatches Hscores Hlen)
        as (scores & Hcompute & Hlen' & _).
      exists scores. split; [exact Hcompute | exact Hlen'].
Defined.

(** The scenario of the specification: the longer second pair is scored
    first, and the scores come back in the order of the input. *)
Example scenario_scores :
  MatroyshkaReranker.length_sort Sample.argsort Sample.scenario =
    Ok ([1%nat; 0%nat],
        [("a very long query repeated many times", "short");
         ("what is X", "X is a protocol")]) ∧
  mapM (MatroyshkaReranker.final_layer_batch Sample.final_forward 1)
       <$> MatroyshkaReranker.prepare_batches Sample.char_tokenizer false
             [("a very long query repeated many times", "short");
              ("what is X", "X is a protocol")] 1 512 None
    = Ok (Ok [[8847]; [7721]]) ∧
  MatroyshkaReranker.compute_score Sample.argsort Sample.final_reranker
    (PairList Sample.scenario) 1 512 None false false = Ok (ScoreList [7721; 8847]).
Proof. vm_compute. done. Qed.

(** C6: in layer-wise mode, when the backend gives [k] per-layer tensors for
    every batch and every layer scores each pair once, [compute_score]
    returns a list of [k] lists, each with one score per input pair, and in
    each of them the score computed at sorted position [j] is at index
    [idx[j]], the index of that pair in the input.  On the synchronous path,
    with a positive batch size and a shaped backend of [k] exit layers, the
    batches are scored that way. *)
Theorem compute_score_layer_wise_shape {F} (np_argsort : list Z → list nat)
    (self : MatroyshkaReranker.t F)
    (forward : Batch → pyobj → pyobj → list (list (list F)) * list (list (list Z)))
    (pairs : list (string * string)) (batch_size max_length : Z)
    (prompt : option string) (normalize use_dataloader : bool) (k : nat) :
  argsort_spec np_argsort →
  MatroyshkaReranker.model self = LayerWise forward →
  pairs ≠ [] →
  ∃ idx sorted,
    MatroyshkaReranker.length_sort np_argsort pairs = Ok (idx, sorted) ∧
    idx ≡ₚ seq 0 (length pairs) ∧
    Forall2 (λ i p, pairs !! i = Some p) idx sorted ∧
    (∀ batches per_batch,
      MatroyshkaReranker.prepare_batches (MatroyshkaReranker.tokenizer self)
        use_dataloader sorted batch_size max_length prompt = Ok batches →
      mapM (MatroyshkaReranker.layer_wise_batch forward) batches = Ok per_batch →
      Forall (λ scores, length scores = k) per_batch →
      (∀ l, (l < k)%nat → length (layer_column l per_batch) = length pairs) →
      ∃ layers,
        MatroyshkaReranker.compute_score np_argsort self (PairList pairs)
          batch_size max_length prompt normalize use_dataloader
          = Ok (LayerScores layers) ∧
        length layers = k ∧
        Forall (λ layer, length layer = length pairs) layers ∧
        ∀ l layer, layers !! l = Some layer →
          ∀ j i, idx !! j = Some i → layer !! i = layer_column l per_batch !! j) ∧
    (use_dataloader = false →
     0 < batch_size →
     layered_backend_shaped forward k →
     ∃ batches per_batch,
       MatroyshkaReranker.prepare_batches (MatroyshkaReranker.tokenizer self)
         use_dataloader sorted batch_size max_length prompt = Ok batches ∧
       mapM (MatroyshkaReranker.layer_wise_batch forward) batches = Ok per_batch ∧
       Forall (λ scores, length scores = k) per_batch ∧
       ∀ l, (l < k)%nat → length (layer_column l per_batch) = length pairs).
Proof.
  intros Hargsort Hmodel Hne.
  destruct (length_sort_correct np_argsort pairs Hargsort)
    as (idx & sorted & Hsort & Hidx & Hsorted).
  exists idx, sorted. do 3 (split; [done|]). split.
  - intros batches per_batch Hbatches Hscores Hk Hcols.
    assert (Hloop : foldM (λ all_scores data,
                       scores ← MatroyshkaReranker.layer_wise_batch forward data;
                       MatroyshkaReranker.extend_layers all_scores scores) [] batches
                    = Ok (layer_columns k per_batch)).
    { apply layer_loop; [done..|].
      destruct k as [|k]; [by right|]. left. intros ->.
      specialize (Hcols 0%nat ltac:(lia)). destruct pairs; done. }
    assert (Hrestore : ∀ col, col ∈ layer_columns k per_batch →
              ∃ layer, MatroyshkaReranker.restore_order np_argsort idx col = Ok layer).
    { intros col (l & -> & Hl%elem_of_seq)%list_elem_of_fmap.
      destruct (restore_order_correct np_argsort Hargsort idx (length pairs) Hidx
                  (layer_column l per_batch)) as (layer & Hlayer & _);
        [apply Hcols; lia|].
      by exists layer. }
    apply mapM_Ok_total in Hrestore as [layers Hlayers].
    exists layers. split.
    { unfold MatroyshkaReranker.compute_score.
      destruct pairs as [|pair pairs]; [done|].
      change (MatroyshkaReranker.normalize_pairs (PairList (pair :: pairs)))
        with (Ok (pair :: pairs)).
      rewrite bind_Ok, Hsort, bind_Ok, Hbatches, bind_Ok, Hmodel.
      by rewrite Hloop, bind_Ok, Hlayers. }
    pose proof (mapM_Ok_length _ _ _ Hlayers) as Hlen.
    unfold layer_columns in Hlen. rewrite length_fmap, length_seq in Hlen.
    split; [done|].
    apply mapM_Ok_Forall2 in Hlayers.
    assert (Hall : ∀ l layer, layers !! l = Some layer →
              length layer = length pairs ∧
              ∀ j i, idx !! j = Some i → layer !! i = layer_column l per_batch !! j).
    { intros l layer Hl.
      destruct (Forall2_lookup_r _ _ _ _ _ Hlayers Hl) as (col & Hcol & Hres).
      unfold layer_columns in Hcol.
      apply list_lookup_fmap_Some in Hcol as (l' & -> & [-> Hlt]%lookup_seq).
      simpl in Hres, Hlt.
      destruct (restore_order_correct np_argsort Hargsort idx (length pairs) Hidx
                  (layer_column l per_batch)) as (layer' & Hlayer' & Hlen' & Horder);
        [by apply Hcols|].
      rewrite Hlayer' in Hres. by injection Hres as <-. }
    split.
    + apply Forall_lookup. intros l layer Hl. by apply Hall in Hl as [? _].
    + intros l layer Hl. by apply Hall in Hl as [_ ?].
  - intros -> Hbs Hshaped.
    destruct (sync_layer_scores_exist (MatroyshkaReranker.tokenizer self)
                forward k sorted batch_size max_length prompt Hshaped Hbs)
      as (batches & per_batch & Hbatches & Hscores & Hk & Hcols).
    exists batches, per_batch. do 3 (split; [done|]).
    intros l Hl. rewrite (Hcols l Hl). apply Forall2_length in Hsorted.
    by rewrite <- Hsorted, (Permutation_length Hidx), length_seq.
Qed.

Lemma compute_score_layer_wise_shape_witness :
  ∃ layers,
    MatroyshkaReranker.compute_score Sample.argsort Sample.layered_reranker
      (PairList Sample.scenario) 1 512 None false false = Ok (LayerScores layers) ∧
    length layers = 3%nat ∧
    Forall (λ layer, length layer = length Sample.scenario) layers.
Proof.
  destruct (compute_score_layer_wise_shape Sample.argsort
              Sample.layered_reranker Sample.layered_forward Sample.scenario 1 512 None
              false false 3)
    as (idx & sorted & _ & _ & _ & Hshape & Hexist).
  - exact sample_argsort_spec.
  - reflexivity.
  - discriminate.
  - destruct Hexist as (batches & per_batch & Hbatches & Hscores & Hk & Hcols).
    + reflexivity.
    + lia.
    + exact sample_layered_shaped.
    + destruct (Hshape batches per_batch Hbatches Hscores Hk Hcols)
        as (layers & Hcompute & Hlen & Hrows & _).
      exists layers. split; [exact Hcompute|]. split; [exact Hlen | exact Hrows].
Defined.

(** The three-layer scenario: per batch three lists of one score, and three
    lists of two scores in input order as the result. *)
Example scenario_layer_scores :
  mapM (MatroyshkaReranker.layer_wise_batch Sample.layered_forward)
       <$> MatroyshkaReranker.prepare_batches Sample.char_tokenizer false
             [("a very long query repeated many times", "short");
              ("what is X", "X is a protocol")] 1 512 None
    = Ok (Ok [[[8847]; [9847]; [10847]]; [[7721]; [8721]; [9721]]]) ∧
  MatroyshkaReranker.compute_score Sample.argsort Sample.layered_reranker
    (PairList Sample.scenario) 1 512 None false false
    = Ok (LayerScores [[7721; 8847]; [8721; 9847]; [9721; 10847]]).
Proof. vm_compute. done. Qed.

(** ** Nested attributes *)

Lemma split_dot_nonempty (attr : string) : split_dot attr ≠ [].
Proof.
  destruct attr as [|c rest]; [done|]. simpl.
  destruct (Ascii.eqb c _); [done|]. by destruct (split_dot rest).
Qed.

Lemma split_dot_snoc (attr : string) :
  ∃ init name, split_dot attr = init ++ [name].
Proof.
  pose proof (split_dot_nonempty attr) as Hne.
  destruct (split_dot attr) as [|part parts] using rev_ind; [done|]. eauto.
Qed.

Lemma split_dot_cons (c : Ascii.ascii) (rest : string) :
  split_dot (String c rest) =
    if Ascii.eqb c (Ascii.ascii_of_nat 46)
    then EmptyString :: split_dot rest
    else match split_dot rest with
         | [] => [String c EmptyString]
         | part :: parts => String c part :: parts
         end.
Proof. reflexivity. Qed.

Lemma split_dot_join (a b : string) :
  split_dot (a +:+ "." +:+ b) = split_dot a ++ split_dot b.
Proof.
  induction a as [|c a IH]; [done|].
  change (String c a +:+ "." +:+ b) with (String c (a +:+ "." +:+ b)).
  rewrite !split_dot_cons, IH.
  destruct (Ascii.eqb c _); [done|].
  pose proof (split_dot_nonempty a). by destruct (split_dot a).
Qed.

Lemma foldM_app {A B} (f : B → A → result B) (b : B) (l1 l2 : list A) :
  foldM f b (l1 ++ l2) = foldM f b l1 ≫= λ b', foldM f b' l2.
Proof.
  revert b. induction l1 as [|x l1 IH]; intros b; [done|].
  simpl. destruct (f b x) as [b'|e]; [|done]. by rewrite !bind_Ok, IH.
Qed.








(** The update is made on the object, so it is seen through any other
    reference to it. *)
Example set_nested_attr_seen_through_alias :
  ∃ h', set_nested_attr sample_heap (VRef 0) "encoder.head.bias" (VAtom 7) = Ok h' ∧
        get_nested_attr h' (VRef 0) "tied.bias" = Ok (VAtom 7).
Proof. eexists. split; reflexivity. Qed.

(** Without the freshness of the last name the round trip can fail: on an
    object that is its own attribute [a], setting [a.a] overwrites the link
    the path goes through. *)
Example get_after_set_cyclic :
  ∃ h', set_nested_attr cyclic_heap (VRef 0) "a.a" (VAtom 5) = Ok h' ∧
        get_nested_attr h' (VRef 0) "a.a" = Raise AttributeError.
Proof. eexists. split; reflexivity. Qed.




(** X4: a path [a.b] is the path [a] followed by the path [b], for reading
    and for writing. *)
Theorem nested_attr_join (h : heap) (obj v : value) (a b : string) :
  get_nested_attr h obj (a +:+ "." +:+ b) =
    (get_nested_attr h obj a ≫= λ o, get_nested_attr h o b) ∧
  set_nested_attr h obj (a +:+ "." +:+ b) v =
    (get_nested_attr h obj a ≫= λ o, set_nested_attr h o b v).
Proof.
  unfold get_nested_attr, set_nested_attr. rewrite split_dot_join.
  split; [apply foldM_app|].
  destruct (split_dot_snoc b) as (init & name & ->).
  rewrite (assoc_L (++)), !length_app, !Nat.add_sub.
  rewrite <- length_app, !take_app_length, !py_index_last, !last_snoc.
  rewrite foldM_app. destruct (foldM (getattr h) obj (split_dot a)) as [o|e]; [|done].
  by rewrite !bind_Ok.
Qed.

(** ** More on the score extractor and the collater *)

(** [mapM] stops at the first element that raises. *)
Lemma mapM_Raise_uniform {A B} (f : A → result B) (l : list A) (e : pyerr) :
  (∀ x e', x ∈ l → f x = Raise e' → e' = e) →
  (∃ x, x ∈ l ∧ f x = Raise e) →
  mapM f l = Raise e.
Proof.
  induction l as [|x l IH]; intros Honly (y & Hy & Hraise).
  - by apply elem_of_nil in Hy.
  - rewrite mapM_cons. destruct (f x) as [b|e'] eqn:Hx.
    + rewrite bind_Ok. rewrite IH; [done| |].
      * intros z e'' Hz. apply Honly. by right.
      * apply elem_of_cons in Hy as [->|Hy]; [congruence|eauto].
    + simpl. f_equal. eapply Honly; [by left|done].
Qed.

(** X5: whenever [last_logit_pool] returns, it returns one entry per row of
    [logits]. *)
Theorem last_logit_pool_one_entry_per_row {A} (logits : list (list A))
    (attention_mask : list (list Z)) (out : list A) :
  last_logit_pool logits attention_mask = Ok out →
  length out = length logits.
Proof.
  unfold last_logit_pool.
  destruct (mapM _ attention_mask) as [last_col|e]; [|done]. rewrite bind_Ok.
  case_bool_decide.
  - apply mapM_Ok_length.
  - destruct (mapM _ (seq 0 (length logits))) as [selected|e] eqn:Hsel; [|done].
    rewrite bind_Ok. case_bool_decide; [done|]. intros [= <-].
    apply mapM_Ok_length in Hsel. by rewrite length_seq in Hsel.
Qed.

Lemma last_logit_pool_one_entry_per_row_witness :
  length [11; 20] = length [[10; 11; 12]; [20; 21; 22]].
Proof.
  apply (last_logit_pool_one_entry_per_row
           [[10; 11; 12]; [20; 21; 22]] [[1; 1; 0]; [1; 0; 0]] [11; 20]).
  reflexivity.
Defined.

(** X6: an attention mask with an empty row makes [last_logit_pool] raise
    [IndexError], whatever the logits. *)
Theorem last_logit_pool_empty_mask_row {A} (logits : list (list A))
    (attention_mask : list (list Z)) :
  [] ∈ attention_mask →
  last_logit_pool logits attention_mask = Raise IndexError.
Proof.
  intros Hempty. unfold last_logit_pool.
  rewrite (mapM_Raise_uniform (λ row : list Z, py_index row (-1))
             attention_mask IndexError).
  - done.
  - intros row e _. rewrite py_index_last. destruct (last row); simpl; congruence.
  - exists []. by split.
Qed.

Lemma last_logit_pool_empty_mask_row_witness :
  last_logit_pool [[10; 11]; [20; 21]] [[1; 1]; []] = Raise IndexError.
Proof.
  apply (last_logit_pool_empty_mask_row [[10; 11]; [20; 21]] [[1; 1]; []]).
  apply elem_of_cons. right. apply elem_of_cons. by left.
Defined.

(** The collater on the argument of the synchronous path, written out. *)
Lemma collater_call_explicit (tok : Tokenizer) (max_length : Z)
    (features : list Encoding) (query_lengths prompt_lengths : list Z) :
  features ≠ [] →
  Forall (λ e, length (attention_mask e) = length (input_ids e)) features →
  ∃ n,
    smallest_multiple_of_8_from (longest_example features) n ∧
    (∀ e, e ∈ features → Z.of_nat (length (input_ids e)) ≤ n) ∧
    collater.__call__ (collater.__init__ tok max_length)
      (collater_data features query_lengths prompt_lengths) =
      Ok ({| batch_input_ids :=
               (λ e, input_ids e ++
                     replicate (Z.to_nat (n - Z.of_nat (length (input_ids e))))
                               (pad_token_id tok)) <$> features;
             batch_attention_mask :=
               (λ e, attention_mask e ++
                     replicate (Z.to_nat (n - Z.of_nat (length (input_ids e)))) 0)
                 <$> features |},
          PSeq (PInt <$> query_lengths), PSeq (PInt <$> prompt_lengths)).
Proof.
  intros Hne Hmask.
  destruct (tokenizer_pad_explicit tok features Hmask) as (n & Hn & Hlen & Hpad).
  exists n. split; [done|]. split; [done|].
  rewrite collater_call_data by done.
  change (collater.tokenizer (collater.__init__ tok max_length)) with tok.
  by rewrite Hpad.
Qed.

(** X7: the collater pads on the right and keeps every token: row [i] of
    the batch is the token ids of example [i] followed by pad tokens, its
    mask is the mask of example [i] followed by as many zeros, and the two
    length lists come back as they were given. *)
Theorem collater_pads_on_the_right (tok : Tokenizer) (max_length : Z)
    (features : list Encoding) (query_lengths prompt_lengths : list Z) :
  features ≠ [] →
  Forall (λ e, length (attention_mask e) = length (input_ids e)) features →
  ∃ collected,
    collater.__call__ (collater.__init__ tok max_length)
      (collater_data features query_lengths prompt_lengths) =
      Ok (collected, PSeq (PInt <$> query_lengths), PSeq (PInt <$> prompt_lengths)) ∧
    ∀ i e, features !! i = Some e →
      ∃ k, batch_input_ids collected !! i =
             Some (input_ids e ++ replicate k (pad_token_id tok)) ∧
           batch_attention_mask collected !! i =
             Some (attention_mask e ++ replicate k 0).
Proof.
  intros Hne Hmask.
  destruct (collater_call_explicit tok max_length features query_lengths
              prompt_lengths Hne Hmask) as (n & _ & _ & Hcall).
  eexists. split; [exact Hcall|]. intros i e Hi. simpl.
  exists (Z.to_nat (n - Z.of_nat (length (input_ids e)))).
  by rewrite !list_lookup_fmap, Hi.
Qed.

Lemma collater_pads_on_the_right_witness :
  ∃ collected,
    collater.__call__ (collater.__init__ Sample.char_tokenizer 512)
      (collater_data [{| input_ids := [1; 65; 66]; attention_mask := [1; 1; 1] |};
                      {| input_ids := [1; 67]; attention_mask := [1; 1] |}] [2; 2] [1; 1]) =
      Ok (collected, PSeq (PInt <$> [2; 2]), PSeq (PInt <$> [1; 1])) ∧
    batch_input_ids collected = [[1; 65; 66; 0; 0; 0; 0; 0]; [1; 67; 0; 0; 0; 0; 0; 0]] ∧
    batch_attention_mask collected = [[1; 1; 1; 0; 0; 0; 0; 0]; [1; 1; 0; 0; 0; 0; 0; 0]].
Proof.
  destruct (collater_pads_on_the_right Sample.char_tokenizer 512
              [{| input_ids := [1; 65; 66]; attention_mask := [1; 1; 1] |};
               {| input_ids := [1; 67]; attention_mask := [1; 1] |}] [2; 2] [1; 1])
    as (collected & Hcall & _).
  - discriminate.
  - repeat constructor.
  - exists collected. split; [exact Hcall|].
    vm_compute in Hcall. by injection Hcall as <-.
Defined.

(** X8: the collater raises [IndexError] on an argument with fewer than
    three entries, and on an empty list of features. *)
Theorem collater_short_argument_raises (self : collater.t) :
  (∀ data, (length data < 3)%nat →
           collater.__call__ self (PSeq data) = Raise IndexError) ∧
  (∀ query_lengths prompt_lengths,
     collater.__call__ self (collater_data [] query_lengths prompt_lengths)
       = Raise IndexError).
Proof.
  split; [|done].
  intros [|a [|b [|c data]]] Hlen; [done..|]. simpl in Hlen. lia.
Qed.

Lemma sum_Z_app (l1 l2 : list Z) : sum_Z (l1 ++ l2) = sum_Z l1 + sum_Z l2.
Proof. induction l1 as [|x l1 IH]; simpl; lia. Qed.

Lemma sum_Z_replicate (k : nat) (x : Z) : sum_Z (replicate k x) = Z.of_nat k * x.
Proof. induction k as [|k IH]; simpl; lia. Qed.

Lemma sum_Z_binary_full (l : list Z) :
  Forall (λ m, m = 0 ∨ m = 1) l → sum_Z l = Z.of_nat (length l) → Forall (λ m, m = 1) l.
Proof.
  induction 1 as [|m l Hm Hl IH]; [constructor|]. simpl.
  pose proof (sum_Z_binary l Hl). intros Hsum.
  destruct Hm as [-> | ->]; [lia|]. constructor; [done|]. apply IH. lia.
Qed.

Lemma last_ones_zeros (a k : nat) :
  (0 < a)%nat →
  last (replicate a 1 ++ replicate k 0) = Some (if decide (k = 0%nat) then 1 else 0).
Proof.
  intros Ha. destruct k as [|k].
  - rewrite app_nil_r. destruct a as [|a]; [lia|].
    by rewrite replicate_S_end, last_snoc.
  - by rewrite replicate_S_end, (assoc_L (++)), last_snoc.
Qed.

(** X9: on a batch the collater built from encodings with masks of ones,
    [last_logit_pool] returns, for logits of the shape of the mask, the
    entry of every row at the last token of its example (position
    [len(input_ids) - 1]), in the branch for full rows and in the branch for
    padded rows alike. *)
Theorem collated_batch_pools_last_token {A} (tok : Tokenizer) (max_length : Z)
    (features : list Encoding) (query_lengths prompt_lengths : list Z) :
  features ≠ [] →
  Forall (λ e, input_ids e ≠ [] ∧
               attention_mask e = replicate (length (input_ids e)) 1) features →
  ∃ collected,
    collater.__call__ (collater.__init__ tok max_length)
      (collater_data features query_lengths prompt_lengths) =
      Ok (collected, PSeq (PInt <$> query_lengths), PSeq (PInt <$> prompt_lengths)) ∧
    ∀ logits : list (list A),
      Forall2 (λ logits_row mask_row, length logits_row = length mask_row)
              logits (batch_attention_mask collected) →
      ∃ out,
        last_logit_pool logits (batch_attention_mask collected) = Ok out ∧
        ∀ i e logits_row, features !! i = Some e → logits !! i = Some logits_row →
          ∃ x, out !! i = Some x ∧
               logits_row !! (length (input_ids e) - 1)%nat = Some x.
Proof.
  intros Hne Hfull.
  destruct (collater_call_explicit tok max_length features query_lengths prompt_lengths)
    as (n & Hn & Hlen & Hcall); [done| |].
  { eapply Forall_impl; [exact Hfull|]. intros e [_ ->]. by rewrite length_replicate. }
  eexists. split; [exact Hcall|]. cbn [batch_attention_mask].
  set (mask := (λ e, attention_mask e ++ _) <$> features).
  rewrite Forall_forall in Hfull.
  assert (Hpos : ∀ e, e ∈ features → (0 < length (input_ids e))%nat).
  { intros e [Hids _]%Hfull. destruct (input_ids e); [done|simpl; lia]. }
  assert (Hrow : ∀ i e, features !! i = Some e →
            mask !! i = Some (replicate (length (input_ids e)) 1 ++
                              replicate (Z.to_nat (n - Z.of_nat (length (input_ids e)))) 0)).
  { intros i e Hi. unfold mask. rewrite list_lookup_fmap, Hi. simpl.
    by destruct (Hfull e (list_elem_of_lookup_2 _ _ _ Hi)) as [_ ->]. }
  assert (HL : (0 < Z.to_nat n)%nat).
  { destruct features as [|e features]; [done|].
    specialize (Hlen e ltac:(by left)). specialize (Hpos e ltac:(by left)). lia. }
  assert (Hshape : Forall (λ row, length row = Z.to_nat n) mask).
  { apply Forall_lookup. intros i row Hi.
    unfold mask in Hi. apply list_lookup_fmap_Some in Hi as (e & -> & Hi).
    destruct (Hfull e (list_elem_of_lookup_2 _ _ _ Hi)) as [_ ->].
    rewrite length_app, !length_replicate.
    specialize (Hlen e (list_elem_of_lookup_2 _ _ _ Hi)). lia. }
  assert (Hbin : binary_mask mask).
  { apply Forall_lookup. intros i row Hi.
    unfold mask in Hi. apply list_lookup_fmap_Some in Hi as (e & -> & Hi).
    destruct (Hfull e (list_elem_of_lookup_2 _ _ _ Hi)) as [_ ->].
    apply Forall_app. split; apply Forall_replicate; auto. }
  intros logits Hlogits.
  assert (Hbatch : length logits = length mask) by by eapply Forall2_length.
  assert (Hlshape : Forall (λ row, length row = Z.to_nat n) logits).
  { apply Forall_lookup. intros i row Hi.
    destruct (Forall2_lookup_l _ _ _ _ _ Hlogits Hi) as (mrow & Hm & ->).
    rewrite Forall_lookup in Hshape. by eapply Hshape. }
  destruct (decide (sum_Z (last_column mask) = Z.of_nat (length mask)))
    as [Hleft|Hright].
  - destruct (last_logit_pool_left logits mask (Z.to_nat n) (Z.to_nat n))
      as (out & Hout & Hsel); [done..|].
    exists out. split; [done|]. intros i e logits_row Hi Hl.
    destruct (Forall2_lookup_l _ _ _ _ _ Hsel Hl) as (x & Hx & Hlast).
    exists x. split; [done|].
    assert (Hones : Forall (λ m, m = 1) (last_column mask)).
    { apply sum_Z_binary_full; [|by rewrite Hleft; unfold last_column; rewrite length_fmap].
      apply Forall_fmap, Forall_lookup. intros j row Hj. simpl.
      pose proof Hbin as Hbin'. unfold binary_mask in Hbin'.
      rewrite Forall_lookup in Hbin'. specialize (Hbin' j row Hj).
      rename Hbin' into Hrowbin.
      destruct (last row) as [m|] eqn:Hm; [|by left]. simpl.
      rewrite Forall_forall in Hrowbin. apply Hrowbin. by eapply last_Some_elem_of. }
    rewrite Forall_lookup in Hones.
    specialize (Hones i _ ltac:(unfold last_column;
      by rewrite list_lookup_fmap, (Hrow i e Hi))).
    rewrite last_ones_zeros in Hones by (apply Hpos; by eapply list_elem_of_lookup_2).
    case_decide as Hk; [|done].
    specialize (Hlen e (list_elem_of_lookup_2 _ _ _ Hi)).
    replace (length (input_ids e)) with (Z.to_nat n) by lia. done.
  - destruct (last_logit_pool_right_binary logits mask (Z.to_nat n) (Z.to_nat n))
      as (out & Hout & Hsel); [done..|].
    exists out. split; [done|]. intros i e logits_row Hi Hl.
    assert (Hzip : zip logits mask !! i = Some (logits_row, replicate (length (input_ids e)) 1 ++
               replicate (Z.to_nat (n - Z.of_nat (length (input_ids e)))) 0)).
    { apply lookup_zip_with_Some. eexists _, _. split; [done|]. split; [done|].
      by apply Hrow. }
    destruct (Forall2_lookup_l _ _ _ _ _ Hsel Hzip) as (x & Hx & _ & Hpy & _).
    exists x. split; [done|]. simpl in Hpy.
    rewrite sum_Z_app, !sum_Z_replicate in Hpy.
    specialize (Hpos e (list_elem_of_lookup_2 _ _ _ Hi)).
    replace (Z.of_nat (length (input_ids e)) * 1 + _ * 0 - 1)
      with (Z.of_nat (length (input_ids e) - 1)) in Hpy by lia.
    rewrite py_index_nat in Hpy. by destruct (logits_row !! _); simplify_eq/=.
Qed.

Lemma collated_batch_pools_last_token_witness :
  ∃ collected out,
    collater.__call__ (collater.__init__ Sample.char_tokenizer 512)
      (collater_data [{| input_ids := [1; 65; 66]; attention_mask := [1; 1; 1] |};
                      {| input_ids := [1; 67]; attention_mask := [1; 1] |}] [2; 2] [1; 1]) =
      Ok (collected, PSeq (PInt <$> [2; 2]), PSeq (PInt <$> [1; 1])) ∧
    last_logit_pool [[0; 1; 2; 3; 4; 5; 6; 7]; [10; 11; 12; 13; 14; 15; 16; 17]]
      (batch_attention_mask collected) = Ok out ∧
    out !! 0%nat = Some 2 ∧ out !! 1%nat = Some 11.
Proof.
  destruct (collated_batch_pools_last_token (A:=Z) Sample.char_tokenizer 512
              [{| input_ids := [1; 65; 66]; attention_mask := [1; 1; 1] |};
               {| input_ids := [1; 67]; attention_mask := [1; 1] |}] [2; 2] [1; 1])
    as (collected & Hcall & Hpool).
  - discriminate.
  - repeat constructor; discriminate.
  - destruct (Hpool [[0; 1; 2; 3; 4; 5; 6; 7]; [10; 11; 12; 13; 14; 15; 16; 17]])
      as (out & Hout & Hsel).
    + vm_compute in Hcall. injection Hcall as <-. repeat constructor.
    + exists collected, out. split; [exact Hcall|]. split; [exact Hout|]. split.
      * destruct (Hsel 0%nat _ _ eq_refl eq_refl) as (x & Hx & Hrow).
        simpl in Hrow. congruence.
      * destruct (Hsel 1%nat _ _ eq_refl eq_refl) as (x & Hx & Hrow).
        simpl in Hrow. congruence.
Defined.

(** ** More on the sequence builder *)

(** The shape of a built item, for every budget. *)
Lemma build_item_shape (tok : Tokenizer)
    (sep_inputs prompt_inputs : list Z) (encode_max_length : Z)
    (query_inputs passage_inputs : list Z) :
  ∃ kept,
    kept `prefix_of` sep_inputs ++ passage_inputs ∧
    input_ids (build_item tok sep_inputs prompt_inputs encode_max_length
                 query_inputs passage_inputs) =
      (bos_token_id tok :: query_inputs) ++ kept ++ sep_inputs ++ prompt_inputs ∧
    attention_mask (build_item tok sep_inputs prompt_inputs encode_max_length
                      query_inputs passage_inputs) =
      replicate (length (bos_token_id tok :: query_inputs) + length kept
                 + length (sep_inputs ++ prompt_inputs))%nat 1.
Proof.
  unfold build_item, prepare_for_model, truncate_only_second.
  cbn [input_ids attention_mask].
  set (second := sep_inputs ++ passage_inputs).
  assert (Hgoal : ∀ kept, kept `prefix_of` second →
    ∃ kept0, kept0 `prefix_of` second ∧
      ((bos_token_id tok :: query_inputs) ++ kept) ++ sep_inputs ++ prompt_inputs =
      (bos_token_id tok :: query_inputs) ++ kept0 ++ sep_inputs ++ prompt_inputs ∧
      replicate (length (((bos_token_id tok :: query_inputs) ++ kept)
                         ++ sep_inputs ++ prompt_inputs)) 1 =
      replicate (length (bos_token_id tok :: query_inputs) + length kept0
                 + length (sep_inputs ++ prompt_inputs))%nat 1).
  { intros kept Hkept. exists kept. split; [done|].
    split; [by rewrite <- (assoc_L (++))|]. f_equal. rewrite !length_app. lia. }
  repeat case_match; simplify_eq; apply Hgoal; try done; apply prefix_take.
Qed.

(** X10: for every budget, the sequence [DatasetForReranker] builds is [bos]
    and the query tokens, then a prefix of separator + passage, then
    separator and prompt: only the second member of the pair is ever cut.
    The mask is all ones of the length of the sequence, and the two markers
    returned with it are the lengths of [bos] + query + separator and of
    separator + prompt. *)
Theorem getitem_keeps_query_and_suffix (tok : Tokenizer)
    (dataset : list (string * string)) (max_len item : Z) (prompt : option string)
    (query passage : string)
    (ds := DatasetForReranker.__init__ tok dataset max_len prompt)
    (query_inputs := tokenize_truncated tok ("A: " +:+ query) 32)
    (passage_inputs := tokenize_truncated tok ("B: " +:+ passage) max_len) :
  py_index dataset item = Ok (query, passage) →
  ∃ kept,
    kept `prefix_of` DatasetForReranker.sep_inputs ds ++ passage_inputs ∧
    DatasetForReranker.__getitem__ ds item =
      Ok ({| input_ids :=
               (bos_token_id tok :: query_inputs) ++ kept ++
               DatasetForReranker.sep_inputs ds ++ DatasetForReranker.prompt_inputs ds;
             attention_mask :=
               replicate (length (bos_token_id tok :: query_inputs) + length kept
                          + length (DatasetForReranker.sep_inputs ds ++
                                    DatasetForReranker.prompt_inputs ds))%nat 1 |},
          Z.of_nat (length (bos_token_id tok :: query_inputs ++
                            DatasetForReranker.sep_inputs ds)),
          Z.of_nat (length (DatasetForReranker.sep_inputs ds ++
                            DatasetForReranker.prompt_inputs ds))).
Proof.
  intros Hpair. subst ds query_inputs passage_inputs.
  unfold DatasetForReranker.__getitem__.
  cbn [DatasetForReranker.__init__ DatasetForReranker.encode_max_length
       DatasetForReranker.sep_inputs DatasetForReranker.prompt_inputs
       DatasetForReranker.tokenizer DatasetForReranker.max_len
       DatasetForReranker.query_prefix DatasetForReranker.passage_prefix
       DatasetForReranker.dataset].
  rewrite Hpair, bind_Ok.
  match goal with
  | |- context [build_item tok ?s ?p ?b ?q ?d] =>
      destruct (build_item_shape tok s p b q d) as (kept & Hkept & Hids & Hmask);
      destruct (build_item tok s p b q d) as [ids mask]
  end.
  simpl in Hids, Hmask. subst ids mask. by exists kept.
Qed.

Lemma getitem_keeps_query_and_suffix_witness :
  ∃ kept ids mask,
    DatasetForReranker.__getitem__
      (DatasetForReranker.__init__ Sample.char_tokenizer Sample.scenario 100 None) 0 =
      Ok ({| input_ids := ids; attention_mask := mask |}, 14, 57) ∧
    ids = (1 :: Sample.char_tokens "A: what is X") ++ kept ++
          Sample.char_tokens sep ++ Sample.char_tokens default_prompt.
Proof.
  destruct (getitem_keeps_query_and_suffix Sample.char_tokenizer Sample.scenario
              100 0 None "what is X" "X is a protocol") as (kept & _ & Hget).
  - reflexivity.
  - exists kept. eexists _, _. split; [exact Hget | reflexivity].
Defined.

(** X11: when the budget leaves room for [bos], the query and the separator,
    the two markers locate the query span and the suffix exactly: the first
    [query_length] tokens are [bos] + query + separator, the last
    [prompt_length] tokens are separator + prompt, and what lies between is
    the passage cut to the rest of the budget. *)
Theorem getitem_markers_locate_spans (tok : Tokenizer)
    (dataset : list (string * string)) (max_len item : Z) (prompt : option string)
    (query passage : string)
    (ds := DatasetForReranker.__init__ tok dataset max_len prompt)
    (query_inputs := tokenize_truncated tok ("A: " +:+ query) 32)
    (passage_inputs := tokenize_truncated tok ("B: " +:+ passage) max_len)
    (sep_inputs := DatasetForReranker.sep_inputs ds)
    (prompt_inputs := DatasetForReranker.prompt_inputs ds) :
  py_index dataset item = Ok (query, passage) →
  1 + Z.of_nat (length query_inputs) < DatasetForReranker.encode_max_length ds →
  1 + Z.of_nat (length query_inputs) + Z.of_nat (length sep_inputs)
    ≤ DatasetForReranker.encode_max_length ds →
  ∃ enc query_length prompt_length,
    DatasetForReranker.__getitem__ ds item = Ok (enc, query_length, prompt_length) ∧
    take (Z.to_nat query_length) (input_ids enc) =
      bos_token_id tok :: query_inputs ++ sep_inputs ∧
    drop (length (input_ids enc) - Z.to_nat prompt_length) (input_ids enc) =
      sep_inputs ++ prompt_inputs ∧
    input_ids enc =
      (bos_token_id tok :: query_inputs ++ sep_inputs) ++
      take (Z.to_nat (DatasetForReranker.encode_max_length ds - query_length))
           passage_inputs ++
      sep_inputs ++ prompt_inputs.
Proof.
  intros Hpair Hroom Hsep. subst ds query_inputs passage_inputs sep_inputs prompt_inputs.
  unfold DatasetForReranker.__getitem__.
  cbn [DatasetForReranker.__init__ DatasetForReranker.encode_max_length
       DatasetForReranker.sep_inputs DatasetForReranker.prompt_inputs
       DatasetForReranker.tokenizer DatasetForReranker.max_len
       DatasetForReranker.query_prefix DatasetForReranker.passage_prefix
       DatasetForReranker.dataset] in *.
  rewrite Hpair, bind_Ok. eexists _, _, _. split; [reflexivity|].
  rewrite build_item_length by exact Hroom.
  set (q := tokenize_truncated tok ("A: " +:+ query) 32) in *.
  set (d := tokenize_truncated tok ("B: " +:+ passage) max_len) in *.
  set (s := tokenize tok sep) in *.
  set (p := tokenize tok match prompt with Some p => p | None => default_prompt end) in *.
  rewrite !(take_app_ge s d) by lia.
  assert (Hids : (bos_token_id tok :: q) ++
                 (s ++ take (Z.to_nat (max_len - Z.of_nat (length s) - Z.of_nat (length p)
                                       - 1 - Z.of_nat (length q)) - length s) d) ++ s ++ p
               = (bos_token_id tok :: q ++ s) ++
                 take (Z.to_nat (max_len - Z.of_nat (length s) - Z.of_nat (length p)
                                 - Z.of_nat (length (bos_token_id tok :: q ++ s)))) d
                 ++ s ++ p).
  { assert (Hk : (Z.to_nat (max_len - Z.of_nat (length s) - Z.of_nat (length p)
                               - 1 - Z.of_nat (length q)) - length s)%nat
                 = Z.to_nat (max_len - Z.of_nat (length s) - Z.of_nat (length p)
                             - Z.of_nat (length (bos_token_id tok :: q ++ s)))).
    { simpl length. rewrite length_app. lia. }
    rewrite Hk. simpl. by rewrite <- !(assoc_L (++)). }
  rewrite Hids. split; [|split; [|done]].
  - rewrite Nat2Z.id. by rewrite take_app_length.
  - rewrite Nat2Z.id.
    rewrite (assoc_L (++) (bos_token_id tok :: q ++ s) (take _ d) (s ++ p)).
    by rewrite length_app, Nat.add_sub, drop_app_length.
Qed.

Lemma getitem_markers_locate_spans_witness :
  ∃ enc,
    DatasetForReranker.__getitem__
      (DatasetForReranker.__init__ Sample.char_tokenizer Sample.scenario 100 None) 0 =
      Ok (enc, 14, 57) ∧
    take 14 (input_ids enc) =
      1 :: Sample.char_tokens "A: what is X" ++ Sample.char_tokens sep ∧
    drop (length (input_ids enc) - 57) (input_ids enc) =
      Sample.char_tokens sep ++ Sample.char_tokens default_prompt.
Proof.
  destruct (getitem_markers_locate_spans Sample.char_tokenizer Sample.scenario
              100 0 None "what is X" "X is a protocol")
    as (enc & ql & pl & Hget & Htake & Hdrop & _).
  - reflexivity.
  - vm_compute. reflexivity.
  - vm_compute. discriminate.
  - assert (Hmarkers : ql = 14 ∧ pl = 57).
    { vm_compute in Hget. by injection Hget as _ <- <-. }
    destruct Hmarkers as [-> ->].
    exists enc. split; [exact Hget|]. split; [exact Htake | exact Hdrop].
Defined.

Lemma py_index_out_of_bounds {A} (l : list A) (i : Z) :
  ¬ (- Z.of_nat (length l) ≤ i < Z.of_nat (length l)) → py_index l i = Raise IndexError.
Proof.
  intros Hi. unfold py_index. repeat case_bool_decide; [| |done].
  - rewrite lookup_ge_None_2 by lia. done.
  - lia.
Qed.

(** X12: [__getitem__] accepts the indices of Python list indexing: it
    returns for [-len <= item < len] and raises [IndexError] outside. *)
Theorem getitem_index_bounds (tok : Tokenizer) (dataset : list (string * string))
    (max_len item : Z) (prompt : option string)
    (ds := DatasetForReranker.__init__ tok dataset max_len prompt) :
  (- Z.of_nat (DatasetForReranker.__len__ ds) ≤ item
     < Z.of_nat (DatasetForReranker.__len__ ds) →
   ∃ sample, DatasetForReranker.__getitem__ ds item = Ok sample) ∧
  (¬ (- Z.of_nat (DatasetForReranker.__len__ ds) ≤ item
        < Z.of_nat (DatasetForReranker.__len__ ds)) →
   DatasetForReranker.__getitem__ ds item = Raise IndexError).
Proof.
  subst ds. unfold DatasetForReranker.__getitem__, DatasetForReranker.__len__.
  cbn [DatasetForReranker.__init__ DatasetForReranker.dataset
       DatasetForReranker.total_len].
  split; intros Hi.
  - destruct (py_index_in_bounds dataset item Hi) as [[query passage] ->].
    rewrite bind_Ok. by eexists.
  - by rewrite py_index_out_of_bounds.
Qed.

Example getitem_negative_index :
  fst <$> DatasetForReranker.__getitem__
            (DatasetForReranker.__init__ Sample.char_tokenizer Sample.scenario 100 None) (-1)
  = fst <$> DatasetForReranker.__getitem__
              (DatasetForReranker.__init__ Sample.char_tokenizer Sample.scenario 100 None) 1.
Proof. reflexivity. Qed.

(** ** Bounds on the synchronous path *)




(** ** More on sorting by length *)

Lemma text_length_length (text : string) :
  MatroyshkaReranker._text_length text = Z.of_nat (String.length text).
Proof.
  unfold MatroyshkaReranker._text_length.
  assert (Hlen : length (String.list_ascii_of_string text) = String.length text).
  { induction text as [|c text IH]; simpl; congruence. }
  case_bool_decide; [by rewrite Hlen|]. rewrite <- Hlen. clear.
  induction (String.list_ascii_of_string text) as [|c l IH]; [done|].
  rewrite fmap_cons. cbn [sum_Z foldr]. fold (sum_Z ((λ t, Z.of_nat
    (String.length (String t EmptyString))) <$> l)). rewrite IH. simpl. lia.
Qed.

Lemma Sorted_fmap_inv {A B} (f : A → B) (R : relation B) (l : list A) :
  Sorted R (f <$> l) → Sorted (λ x y, R (f x) (f y)) l.
Proof.
  induction l as [|x l IH]; [constructor|].
  rewrite fmap_cons. intros [Hl Hhd]%Sorted_inv. constructor; [by apply IH|].
  destruct l; [constructor|]. apply HdRel_inv in Hhd. by constructor.
Qed.

Lemma fmap_lookup_total_seq_gen {A} `{!Inhabited A} (l : list A) :
  (λ i : nat, l !!! i) <$> seq 0 (length l) = l.
Proof.
  apply list_eq. intros i. rewrite list_lookup_fmap.
  destruct (decide (i < length l)%nat) as [Hi|Hi].
  - rewrite lookup_seq_lt by done. simpl.
    destruct (lookup_lt_is_Some_2 l i Hi) as [x Hx].
    by rewrite (list_lookup_total_correct _ _ _ Hx), Hx.
  - rewrite lookup_seq_ge, lookup_ge_None_2 by lia. done.
Qed.

Lemma Forall2_lookup_total_fmap {A} `{!Inhabited A} (l : list A) (idx : list nat)
    (sorted : list A) :
  Forall2 (λ i x, l !! i = Some x) idx sorted → sorted = (λ i : nat, l !!! i) <$> idx.
Proof.
  induction 1 as [|i x idx sorted Hx _ IH]; [done|].
  rewrite fmap_cons, <- IH. f_equal. symmetry. by apply list_lookup_total_correct.
Qed.

Lemma Sorted_weaken {A} (R R' : relation A) (l : list A) :
  (∀ x y, R x y → R' x y) → Sorted R l → Sorted R' l.
Proof.
  intros HR. induction 1 as [|x l _ IH Hhd]; constructor; [done|].
  destruct Hhd; constructor; auto.
Qed.

Lemma length_sort_idx (np_argsort : list Z → list nat)
    (pairs : list (string * string)) (idx : list nat) (sorted : list (string * string)) :
  MatroyshkaReranker.length_sort np_argsort pairs = Ok (idx, sorted) →
  idx = np_argsort ((λ '(q, p), - MatroyshkaReranker._text_length q
                                 - MatroyshkaReranker._text_length p) <$> pairs).
Proof.
  unfold MatroyshkaReranker.length_sort. destruct (mapM _ _); simpl; congruence.
Qed.

(** X14: the pairs are scored longest first.  [length_sort] returns a
    rearrangement of the pairs in which the number of characters of query
    plus passage never increases from one pair to the next. *)
Theorem length_sort_longest_first (np_argsort : list Z → list nat)
    (pairs : list (string * string)) :
  argsort_spec np_argsort →
  ∃ idx sorted,
    MatroyshkaReranker.length_sort np_argsort pairs = Ok (idx, sorted) ∧
    sorted ≡ₚ pairs ∧
    Sorted (λ a b, (combined_length b ≤ combined_length a)%nat) sorted.
Proof.
  intros Hargsort.
  destruct (length_sort_correct np_argsort pairs Hargsort)
    as (idx & sorted & Hsort & Hidx & Hsorted).
  exists idx, sorted. split; [done|].
  pose proof (Forall2_lookup_total_fmap pairs idx sorted Hsorted) as Heq.
  split.
  - rewrite Heq, Hidx. by rewrite fmap_lookup_total_seq_gen.
  - pose proof (length_sort_idx _ _ _ _ Hsort) as Hnp.
    set (key := λ '(q, p), - MatroyshkaReranker._text_length q
                           - MatroyshkaReranker._text_length p) in Hnp.
    pose proof (argsort_sorted _ Hargsort (key <$> pairs)) as Hkeys.
    rewrite <- Hnp in Hkeys.
    assert (Hfmap : (λ i : nat, (key <$> pairs) !!! i) <$> idx = key <$> sorted).
    { rewrite Heq, <- list_fmap_compose. apply list_fmap_ext. intros k i Hi. simpl.
      apply list_lookup_total_fmap.
      assert (i ∈ seq 0 (length pairs)) as ?%elem_of_seq; [|lia].
      rewrite <- Hidx. by eapply list_elem_of_lookup_2. }
    rewrite Hfmap in Hkeys. apply Sorted_fmap_inv in Hkeys.
    eapply Sorted_weaken; [|exact Hkeys].
    intros [q1 p1] [q2 p2]. unfold key, combined_length. simpl.
    rewrite !text_length_length. lia.
Qed.

Lemma length_sort_longest_first_witness :
  ∃ idx sorted,
    MatroyshkaReranker.length_sort Sample.argsort Sample.scenario = Ok (idx, sorted) ∧
    sorted ≡ₚ Sample.scenario ∧
    Sorted (λ a b, (combined_length b ≤ combined_length a)%nat) sorted.
Proof. exact (length_sort_longest_first _ Sample.scenario sample_argsort_spec). Defined.

(** X15: restoring undoes the sorting.  Applied to the sorted pairs
    themselves, [restore_order] with the index list of [length_sort] gives
    back the pairs in the order of the caller. *)
Theorem restore_order_inverts_length_sort (np_argsort : list Z → list nat)
    (pairs : list (string * string)) (idx : list nat) (sorted : list (string * string)) :
  argsort_spec np_argsort →
  MatroyshkaReranker.length_sort np_argsort pairs = Ok (idx, sorted) →
  MatroyshkaReranker.restore_order np_argsort idx sorted = Ok pairs.
Proof.
  intros Hargsort Hsort.
  destruct (length_sort_correct np_argsort pairs Hargsort)
    as (idx' & sorted' & Hsort' & Hidx & Hsorted).
  rewrite Hsort' in Hsort. simplify_eq.
  assert (Hlen : length sorted = length pairs).
  { apply Forall2_length in Hsorted.
    by rewrite <- Hsorted, (Permutation_length Hidx), length_seq. }
  destruct (restore_order_correct np_argsort Hargsort idx (length pairs) Hidx sorted Hlen)
    as (restored & -> & Hlen' & Hrestored).
  f_equal. apply list_eq. intros i.
  destruct (decide (i < length pairs)%nat) as [Hi|Hi].
  - assert (i ∈ idx) as [j Hj]%list_elem_of_lookup_1.
    { rewrite Hidx. apply elem_of_seq. lia. }
    rewrite (Hrestored j i Hj).
    destruct (Forall2_lookup_l _ _ _ _ _ Hsorted Hj) as (p & -> & Hp). done.
  - by rewrite !lookup_ge_None_2 by lia.
Qed.

Lemma restore_order_inverts_length_sort_witness :
  MatroyshkaReranker.restore_order Sample.argsort [1; 0]%nat
    [("bb", "cc"); ("a", "b")] = Ok [("a", "b"); ("bb", "cc")].
Proof.
  apply (restore_order_inverts_length_sort Sample.argsort _ _ _ sample_argsort_spec).
  vm_compute. reflexivity.
Defined.

(** ** Batching *)

Lemma chunks_fuel_sizes {A} (fuel n : nat) (l : list A) :
  (0 < n)%nat → (length l ≤ fuel)%nat →
  Forall (λ c, (length c ≤ n)%nat) (chunks_fuel fuel n l) ∧
  Z.of_nat (length (chunks_fuel fuel n l)) =
    (Z.of_nat (length l) + Z.of_nat n - 1) `div` Z.of_nat n ∧
  ∀ i c, chunks_fuel fuel n l !! i = Some c →
         (S i < length (chunks_fuel fuel n l))%nat → length c = n.
Proof.
  intros Hn. revert l. induction fuel as [|fuel IH]; intros l Hfuel.
  - destruct l; [|simpl in *; lia]. simpl. split; [constructor|]. split; [|done].
    symmetry. apply Z.div_small. lia.
  - destruct l as [|x l].
    { simpl. split; [constructor|]. split; [|done]. symmetry. apply Z.div_small. lia. }
    cbn [chunks_fuel].
    assert (Hpos : (0 < length (x :: l))%nat) by (simpl; lia).
    revert Hfuel Hpos. generalize (x :: l). clear x l. intros l Hfuel Hpos.
    destruct (IH (drop n l)) as (Hle & Hcount & Hfull).
    { rewrite length_drop. lia. }
    split; [|split].
    + constructor; [|done]. rewrite length_take. lia.
    + cbn [length]. rewrite Nat2Z.inj_succ, Hcount, length_drop.
      destruct (decide (length l ≤ n)%nat) as [Hshort|Hlong].
      * replace (length l - n)%nat with 0%nat by lia.
        rewrite (Z.div_small (Z.of_nat 0 + Z.of_nat n - 1)) by lia.
        apply (Z.div_unique _ _ 1 (Z.of_nat (length l) - 1)); lia.
      * rewrite Nat2Z.inj_sub by lia.
        replace (Z.of_nat (length l) + Z.of_nat n - 1)
          with ((Z.of_nat (length l) - Z.of_nat n + Z.of_nat n - 1) + 1 * Z.of_nat n)
          by lia.
        rewrite Z.div_add by lia. lia.
    + intros [|i] c Hc Hi.
      * simpl in Hc. simplify_eq. rewrite length_take. cbn [length] in Hi.
        destruct (decide (n ≤ length l)%nat); [lia|].
        rewrite drop_ge in Hi by lia. destruct fuel; simpl in Hi; lia.
      * simpl in Hc. apply (Hfull i c Hc). simpl in Hi. lia.
Qed.

(** X16: the batches partition the list.  For a positive [batch_size] the
    slices are, in order, the whole list cut into pieces: none is empty,
    none has more than [batch_size] elements, all but the last have exactly
    [batch_size], and there are [ceil(len(l) / batch_size)] of them. *)
Theorem batch_slices_partition {A} (batch_size : Z) (l : list A) :
  0 < batch_size →
  ∃ slices,
    batch_slices batch_size l = Ok slices ∧
    concat slices = l ∧
    Forall (λ c, 0 < Z.of_nat (length c) ≤ batch_size) slices ∧
    (∀ i c, slices !! i = Some c → (S i < length slices)%nat →
            Z.of_nat (length c) = batch_size) ∧
    Z.of_nat (length slices) = (Z.of_nat (length l) + batch_size - 1) `div` batch_size.
Proof.
  intros Hbs. unfold batch_slices.
  rewrite !bool_decide_eq_false_2 by lia.
  set (n := Z.to_nat batch_size). assert (Hn : (0 < n)%nat) by lia.
  assert (Hbsn : batch_size = Z.of_nat n) by lia.
  destruct (chunks_fuel_concat (length l) n l Hn) as [Hcat Hne]; [done|].
  destruct (chunks_fuel_sizes (length l) n l Hn) as (Hle & Hcount & Hfull); [done|].
  eexists. split; [done|]. split; [done|]. split; [|split].
  - rewrite Forall_forall in Hne, Hle. apply Forall_forall. intros c Hc.
    specialize (Hne c Hc). specialize (Hle c Hc). destruct c; [done|]. simpl in *. lia.
  - intros i c Hc Hi. rewrite (Hfull i c Hc Hi). lia.
  - by rewrite Hcount, Hbsn.
Qed.

Lemma batch_slices_partition_witness :
  ∃ slices,
    batch_slices 2 [10; 20; 30; 40; 50] = Ok slices ∧
    concat slices = [10; 20; 30; 40; 50] ∧
    Forall (λ c, 0 < Z.of_nat (length c) ≤ 2) slices ∧
    (∀ i c, slices !! i = Some c → (S i < length slices)%nat →
            Z.of_nat (length c) = 2) ∧
    Z.of_nat (length slices) = (Z.of_nat (length [10; 20; 30; 40; 50]) + 2 - 1) `div` 2.
Proof. apply (batch_slices_partition 2 [10; 20; 30; 40; 50]). lia. Defined.

(** ** Layer lists of different lengths *)

Lemma extend_loop_rest {F} (done_acc done_scores acc scores rest_acc rest_scores :
    list (list F)) :
  length done_acc = length done_scores →
  length acc = length scores →
  foldM (MatroyshkaReranker.extend_layer (done_scores ++ scores ++ rest_scores))
        (done_acc ++ acc ++ rest_acc)
        (seq (length done_acc) (length scores)) =
  Ok (done_acc ++ zip_with (++) acc scores ++ rest_acc).
Proof.
  revert done_acc done_scores acc.
  induction scores as [|s scores IH]; intros done_acc done_scores acc Hdone Hlen.
  - destruct acc; [|done]. done.
  - destruct acc as [|a acc]; [done|]. simpl in Hlen.
    simpl seq. rewrite foldM_cons.
    change ((a :: acc) ++ rest_acc) with (a :: (acc ++ rest_acc)).
    change ((s :: scores) ++ rest_scores) with (s :: (scores ++ rest_scores)).
    rewrite extend_layer_middle, bind_Ok by done.
    replace (done_scores ++ s :: scores ++ rest_scores)
      with ((done_scores ++ [s]) ++ scores ++ rest_scores)
      by by rewrite <- (assoc_L (++)).
    replace (S (length done_acc)) with (length (done_acc ++ [a ++ s]))
      by (rewrite length_app; simpl; lia).
    rewrite IH.
    + by rewrite <- (assoc_L (++)).
    + rewrite !length_app. simpl. lia.
    + lia.
Qed.

(** X17: once layer lists exist, a batch with another number of exit
    layers is not appended layer by layer.  With fewer layers than before
    only the first lists grow and the others are left as they are; with
    more layers [extend_layers] raises [IndexError]. *)
Theorem extend_layers_layer_count_mismatch {F} (all_scores scores : list (list F)) :
  all_scores ≠ [] →
  (length scores ≤ length all_scores →
   MatroyshkaReranker.extend_layers all_scores scores =
     Ok (zip_with (++) (take (length scores) all_scores) scores
           ++ drop (length scores) all_scores))%nat ∧
  (length all_scores < length scores →
   MatroyshkaReranker.extend_layers all_scores scores = Raise IndexError)%nat.
Proof.
  intros Hne. unfold MatroyshkaReranker.extend_layers.
  rewrite bool_decide_eq_false_2 by by destruct all_scores.
  split; intros Hlen.
  - pose proof (extend_loop_rest [] [] (take (length scores) all_scores) scores
                  (drop (length scores) all_scores) [] eq_refl) as Hloop.
    rewrite length_take, app_nil_r in Hloop. cbn [app length] in Hloop.
    rewrite take_drop in Hloop. apply Hloop. lia.
  - set (m := length all_scores) in *.
    assert (Hsplit : seq 0 (length scores)
                     = seq 0 m ++ m :: seq (S m) (length scores - S m)).
    { replace (length scores) with (m + S (length scores - S m))%nat at 1 by lia.
      by rewrite seq_app. }
    rewrite Hsplit, foldM_app.
    pose proof (extend_loop_rest [] [] all_scores (take m scores) [] (drop m scores)
                  eq_refl) as Hloop.
    rewrite length_take, app_nil_r in Hloop. cbn [app length] in Hloop.
    rewrite take_drop in Hloop. replace (m `min` length scores)%nat with m in Hloop by lia.
    rewrite Hloop, bind_Ok by done.
    apply foldM_Raise_head. unfold MatroyshkaReranker.extend_layer.
    rewrite app_nil_r, !py_index_nat.
    rewrite (lookup_ge_None_2 (zip_with _ _ _)); [done|].
    rewrite length_zip_with, length_take. lia.
Qed.

Lemma extend_layers_layer_count_mismatch_witness :
  MatroyshkaReranker.extend_layers [[1; 2]; [3; 4]] [[5]] = Ok [[1; 2; 5]; [3; 4]] ∧
  MatroyshkaReranker.extend_layers [[1; 2]] [[5]; [6]] = Raise IndexError.
Proof.
  split.
  - apply (extend_layers_layer_count_mismatch [[1; 2]; [3; 4]] [[5]]);
      [done|simpl; lia].
  - apply (extend_layers_layer_count_mismatch [[1; 2]] [[5]; [6]]);
      [done|simpl; lia].
Defined.

(** ** Restoring with a wrong number of scores *)

Lemma mapM_ext_elem_of {A B} (f g : A → result B) (l : list A) :
  (∀ x, x ∈ l → f x = g x) → mapM f l = mapM g l.
Proof.
  induction l as [|x l IH]; intros Hfg; [done|].
  rewrite !mapM_cons, (Hfg x) by by left.
  rewrite IH; [done|]. intros y Hy. apply Hfg. by right.
Qed.

Lemma restore_order_short {F} (np_argsort : list Z → list nat) (idx : list nat)
    (n : nat) (scores : list F) :
  argsort_spec np_argsort → idx ≡ₚ seq 0 n → (length scores < n)%nat →
  MatroyshkaReranker.restore_order np_argsort idx scores = Raise IndexError.
Proof.
  intros Hargsort Hidx Hlen. unfold MatroyshkaReranker.restore_order.
  fold (inverse_of np_argsort idx).
  apply (mapM_Raise_uniform (λ k : nat, py_index scores (Z.of_nat k))
           (inverse_of np_argsort idx) IndexError).
  - intros k e' _. rewrite py_index_nat. destruct (scores !! k); simpl; congruence.
  - exists (length scores). split.
    + rewrite (inverse_perm np_argsort Hargsort idx n Hidx). apply elem_of_seq. lia.
    + by rewrite py_index_nat, lookup_ge_None_2.
Qed.

Lemma restore_order_surplus {F} (np_argsort : list Z → list nat) (idx : list nat)
    (n : nat) (scores : list F) :
  argsort_spec np_argsort → idx ≡ₚ seq 0 n →
  MatroyshkaReranker.restore_order np_argsort idx scores =
  MatroyshkaReranker.restore_order np_argsort idx (take n scores).
Proof.
  intros Hargsort Hidx. unfold MatroyshkaReranker.restore_order.
  fold (inverse_of np_argsort idx).
  apply mapM_ext_elem_of. intros k Hk.
  rewrite (inverse_perm np_argsort Hargsort idx n Hidx) in Hk. apply elem_of_seq in Hk.
  by rewrite !py_index_nat, lookup_take_lt by lia.
Qed.

(** X18: [restore_order] does not check the number of scores.  With fewer
    scores than sorted indices it raises [IndexError]; with more, the
    scores beyond the last index are dropped without notice and the others
    are put back at their original positions. *)
Theorem restore_order_wrong_length {F} (np_argsort : list Z → list nat)
    (idx : list nat) (n : nat) (scores : list F) :
  argsort_spec np_argsort → idx ≡ₚ seq 0 n →
  ((length scores < n)%nat →
   MatroyshkaReranker.restore_order np_argsort idx scores = Raise IndexError) ∧
  ((n ≤ length scores)%nat →
   ∃ restored,
     MatroyshkaReranker.restore_order np_argsort idx scores = Ok restored ∧
     length restored = n ∧
     ∀ j i, idx !! j = Some i → restored !! i = scores !! j).
Proof.
  intros Hargsort Hidx. split; intros Hlen.
  - by apply (restore_order_short np_argsort idx n).
  - rewrite (restore_order_surplus np_argsort idx n) by done.
    destruct (restore_order_correct np_argsort Hargsort idx n Hidx (take n scores))
      as (restored & Hrestored & Hlen' & Hplaces).
    { rewrite length_take. lia. }
    exists restored. split; [done|]. split; [done|]. intros j i Hj.
    rewrite (Hplaces j i Hj). apply lookup_take_lt.
    apply lookup_lt_Some in Hj. rewrite (Permutation_length Hidx), length_seq in Hj. lia.
Qed.

Lemma restore_order_wrong_length_witness :
  (MatroyshkaReranker.restore_order Sample.argsort [1; 0]%nat [7] = Raise IndexError) ∧
  ∃ restored,
    MatroyshkaReranker.restore_order Sample.argsort [1; 0]%nat [7; 8; 9] = Ok restored ∧
    length restored = 2%nat ∧
    ∀ j i, [1; 0]%nat !! j = Some i → restored !! i = [7; 8; 9] !! j.
Proof.
  assert (Hidx : [1; 0]%nat ≡ₚ seq 0 2) by apply (Permutation_swap 0%nat 1%nat []).
  split.
  - apply (restore_order_wrong_length Sample.argsort [1; 0]%nat 2 [7]
             sample_argsort_spec Hidx). simpl. lia.
  - apply (restore_order_wrong_length Sample.argsort [1; 0]%nat 2 [7; 8; 9]
             sample_argsort_spec Hidx). simpl. lia.
Defined.

(** ** Batch sizes that are not positive *)

(** X19: a zero [batch_size] is refused on both paths, and a negative one
    on the [DataLoader] path: a call that gets past the reading of the
    pairs raises [ValueError] before any batch is built. *)
Theorem compute_score_rejects_batch_size {F} (np_argsort : list Z → list nat)
    (self : MatroyshkaReranker.t F) (sentence_pairs : py_sentence_pairs)
    (pairs : list (string * string)) (batch_size max_length : Z)
    (prompt : option string) (normalize use_dataloader : bool) :
  argsort_spec np_argsort →
  MatroyshkaReranker.normalize_pairs sentence_pairs = Ok pairs →
  batch_size = 0 ∨ (batch_size < 0 ∧ use_dataloader = true) →
  MatroyshkaReranker.compute_score np_argsort self sentence_pairs
    batch_size max_length prompt normalize use_dataloader = Raise ValueError.
Proof.
  intros Hargsort Hnorm Hbs. unfold MatroyshkaReranker.compute_score.
  rewrite Hnorm, bind_Ok.
  destruct (length_sort_correct np_argsort pairs Hargsort)
    as (idx & sorted & Hsort & _ & _).
  rewrite Hsort, bind_Ok.
  unfold MatroyshkaReranker.prepare_batches, MatroyshkaReranker.dataloader_batches,
    MatroyshkaReranker.sync_batches, batch_slices.
  destruct use_dataloader.
  - rewrite bool_decide_eq_true_2 by lia. done.
  - destruct Hbs as [->|[_ ?]]; [|done]. done.
Qed.

Lemma compute_score_rejects_batch_size_witness :
  MatroyshkaReranker.compute_score Sample.argsort Sample.final_reranker
    (PairList Sample.scenario) 0 512 None false false = Raise ValueError.
Proof.
  apply (compute_score_rejects_batch_size Sample.argsort Sample.final_reranker
           (PairList Sample.scenario) Sample.scenario 0 512 None false false
           sample_argsort_spec); [reflexivity|by left].
Defined.

(** X20: a negative [batch_size] on the synchronous path builds no batch
    at all.  In final-layer mode restoring the order of the empty score
    list raises [IndexError]; in layer-wise mode the call returns the empty
    list and no pair is scored. *)
Theorem compute_score_negative_batch_size {F} (np_argsort : list Z → list nat)
    (self : MatroyshkaReranker.t F) (sentence_pairs : py_sentence_pairs)
    (pairs : list (string * string)) (batch_size max_length : Z)
    (prompt : option string) (normalize : bool) :
  argsort_spec np_argsort →
  MatroyshkaReranker.normalize_pairs sentence_pairs = Ok pairs →
  batch_size < 0 →
  MatroyshkaReranker.compute_score np_argsort self sentence_pairs
    batch_size max_length prompt normalize false =
  if MatroyshkaReranker.layer_wise self then Ok (LayerScores []) else Raise IndexError.
Proof.
  intros Hargsort Hnorm Hbs. unfold MatroyshkaReranker.compute_score.
  rewrite Hnorm, bind_Ok.
  destruct (length_sort_correct np_argsort pairs Hargsort)
    as (idx & sorted & Hsort & Hidx & _).
  rewrite Hsort, bind_Ok.
  unfold MatroyshkaReranker.prepare_batches, MatroyshkaReranker.sync_batches,
    batch_slices, MatroyshkaReranker.layer_wise.
  rewrite bool_decide_eq_false_2, bool_decide_eq_true_2 by lia.
  rewrite !bind_Ok. rewrite fmap_nil.
  destruct (MatroyshkaReranker.model self) as [forward|forward].
  - cbn [foldM]. rewrite bind_Ok.
    rewrite (restore_order_short np_argsort idx (length pairs)); [done..|].
    apply normalize_pairs_nonempty in Hnorm. destruct pairs; [done|simpl; lia].
  - cbn [foldM]. rewrite bind_Ok, mapM_nil, bind_Ok. done.
Qed.

Lemma compute_score_negative_batch_size_witness :
  MatroyshkaReranker.compute_score Sample.argsort Sample.layered_reranker
    (PairList Sample.scenario) (-1) 512 None false false = Ok (LayerScores []).
Proof.
  apply (compute_score_negative_batch_size Sample.argsort Sample.layered_reranker
           (PairList Sample.scenario) Sample.scenario (-1) 512 None false
           sample_argsort_spec); [reflexivity|lia].
Defined.

Lemma compute_score_dataloader_raises_witness :
  ∃ e, MatroyshkaReranker.compute_score Sample.argsort Sample.final_reranker
         (PairList Sample.scenario) 2 512 None false true = Raise e.
Proof.
  exact (compute_score_dataloader_raises Sample.argsort Sample.final_reranker
           (PairList Sample.scenario) 2 512 None false sample_argsort_spec).
Defined.


Lemma collater_short_argument_raises_witness :
  collater.__call__ (collater.__init__ Sample.char_tokenizer 8) (PSeq [PInt 1; PInt 2])
    = Raise IndexError.
Proof.
  apply (collater_short_argument_raises (collater.__init__ Sample.char_tokenizer 8)).
  simpl. lia.
Defined.

Lemma getitem_index_bounds_witness :
  DatasetForReranker.__getitem__
    (DatasetForReranker.__init__ Sample.char_tokenizer Sample.scenario 100 None) 2
  = Raise IndexError.
Proof.
  apply (getitem_index_bounds Sample.char_tokenizer Sample.scenario 100 2 None).
  vm_compute. intros [_ H]. discriminate H.
Defined.
